(** * bhtsne.py: the binary exchange with the bh_tsne engine

    A shallow embedding of [src/tsne/bhtsne.py]: the [struct] codec calls the
    wrapper makes, the request written to [data.dat], the engine call, the
    decoding of [result.dat], the sort that restores the input order, and the
    temporary directory that is removed when the generator leaves its [with]
    block.

    Python values are modelled as follows.
    - an [int] is a [Z]; [pack('i', _)] refuses what does not fit 32 bits;
    - a [float] is its IEEE-754 binary64 bit pattern, a [Z] below [2^64]
      (the program only stores, loads and compares floats);
    - a [str] of bytes is a [list byte];
    - an exception is a value of [exn]; a computation that may raise returns
      [result A = exn + A];
    - the file system is a finite map from directory paths to directories,
      a directory a finite map from file names to contents;
    - [bh_tsne] is a generator: its body runs when the consumer calls
      [next], so it is a state machine [gen_state] with a step [next]. *)

From Stdlib Require Import ZArith List String Ascii Lia Bool.
From Stdlib.Strings Require Import Byte.
From Stdlib.Sorting Require Import Sorted Permutation.
From stdpp Require Import gmap strings list fin_maps sorting.

Local Open Scope Z_scope.

(** ** Exceptions and the error monad *)

(** The exceptions the wrapper can raise.  [IndexError] comes from
    [samples[0]], [StructError] (Python's [struct.error]) from [pack] and
    [unpack], [AssertionError] from the [assert] on the return code and
    [IOError] from opening a result file that the engine did not write. *)
Inductive exn : Type :=
| IndexError
| StructError
| AssertionError (msg : string)
| IOError.

Definition result (A : Type) : Type := (exn + A)%type.

Definition ret {A} (a : A) : result A := inr a.
Definition raise {A} (e : exn) : result A := inl e.

Definition bind {A B} (m : result A) (k : A -> result B) : result B :=
  match m with
  | inl e => inl e
  | inr a => k a
  end.

Declare Scope result_scope.
Delimit Scope result_scope with result.
Notation "x <- m ;; k" := (bind m (fun x => k))
  (at level 100, m at next level, right associativity) : result_scope.
Local Open Scope result_scope.

(** ** Bytes and little-endian words *)

Definition byte_of_Z (z : Z) : byte :=
  default x00 (Byte.of_N (Z.to_N (z mod 256))).

Definition Z_of_byte (b : byte) : Z := Z.of_N (Byte.to_N b).

(** The [n] low bytes of [z], least significant first. *)
Fixpoint le_bytes (n : nat) (z : Z) : list byte :=
  match n with
  | O => []
  | S n' => byte_of_Z z :: le_bytes n' (z / 256)
  end.

Fixpoint le_value (bs : list byte) : Z :=
  match bs with
  | [] => 0
  | b :: bs' => Z_of_byte b + 256 * le_value bs'
  end.

(** ** Python floats *)

Record float64 : Type := F64 { bits : Z }.

(** Every Python float is a binary64 value: 64 bits. *)
Definition float64_ok (f : float64) : bool :=
  (0 <=? bits f) && (bits f <? 2 ^ 64).

Definition is_nan (f : float64) : bool :=
  ((bits f / 2 ^ 52) mod 2 ^ 11 =? 2047) && negb (bits f mod 2 ^ 52 =? 0).

(** Sign and magnitude: the order of the keys is the order of the values
    for floats that are not NaN, and both zeros have key 0. *)
Definition ord_key (f : float64) : Z :=
  if bits f <? 2 ^ 63 then bits f mod 2 ^ 63 else - (bits f mod 2 ^ 63).

Definition float_eq (a b : float64) : bool :=
  negb (is_nan a) && negb (is_nan b) && (ord_key a =? ord_key b).

Definition float_lt (a b : float64) : bool :=
  negb (is_nan a) && negb (is_nan b) && (ord_key a <? ord_key b).

(** ** The [struct] module, at the formats the wrapper uses

    The wrapper packs with ['iiddi'], ['<n>d'] and ['i'] and unpacks with
    ['ii'], ['<n>d'] and ['i'], all in native mode.  Native alignment pads a
    field to a multiple of its size; in ['iiddi'] the fields start at 0, 4,
    8, 16 and 24 and a run of ['d'] starts at 0, so none of these formats
    holds a padding byte. *)

Definition INT_MIN : Z := - 2 ^ 31.
Definition INT_MAX : Z := 2 ^ 31 - 1.

Definition int32_ok (z : Z) : bool := (INT_MIN <=? z) && (z <=? INT_MAX).

(** [pack('i', z)]: [struct.error] when [z] does not fit. *)
Definition pack_i (z : Z) : result (list byte) :=
  if int32_ok z then ret (le_bytes 4 (z mod 2 ^ 32)) else raise StructError.

(** [pack('d', f)]. *)
Definition pack_d (f : float64) : list byte := le_bytes 8 (bits f).

Definition unpack_i (bs : list byte) : Z :=
  let u := le_value bs in
  if u <? 2 ^ 31 then u else u - 2 ^ 32.

Definition unpack_d (bs : list byte) : float64 := F64 (le_value bs).

(** [pack('<n>d', *vs)] with [n = len(vs)]. *)
Definition pack_nd (vs : list float64) : list byte :=
  concat (map pack_d vs).

(** [pack('iiddi', a, b, c, d, e)]. *)
Definition pack_iiddi (a b : Z) (c d : float64) (e : Z) : result (list byte) :=
  ba <- pack_i a ;;
  bb <- pack_i b ;;
  be <- pack_i e ;;
  ret (ba ++ bb ++ pack_d c ++ pack_d d ++ be).

(** A file opened for reading: the bytes from the current position on. *)
Abbreviation file_handle := (list byte).

(** [fh.read(n)]: at most [n] bytes, fewer at the end of the file. *)
Definition fh_read (n : nat) (fh : file_handle) : list byte * file_handle :=
  (take n fh, drop n fh).

(** Cut [bs] into words of [w] bytes; used on a string whose length is a
    multiple of [w]. *)
Fixpoint chunks (w : nat) (n : nat) (bs : list byte) : list (list byte) :=
  match n with
  | O => []
  | S n' => take w bs :: chunks w n' (drop w bs)
  end.

(** [_read_unpack('ii', fh)]: [unpack] raises [struct.error] unless it is
    handed exactly [calcsize('ii') = 8] bytes. *)
Definition _read_unpack_ii (fh : file_handle) : result ((Z * Z) * file_handle) :=
  let '(bs, fh') := fh_read 8 fh in
  if (length bs =? 8)%nat
  then ret ((unpack_i (take 4 bs), unpack_i (drop 4 bs)), fh')
  else raise StructError.

(** [_read_unpack('i', fh)]: a 1-tuple, here its only component. *)
Definition _read_unpack_i (fh : file_handle) : result (Z * file_handle) :=
  let '(bs, fh') := fh_read 4 fh in
  if (length bs =? 4)%nat
  then ret (unpack_i bs, fh')
  else raise StructError.

(** [_read_unpack('{}d'.format(n), fh)]: a negative [n] gives a format
    string such as ['-1d'], which [calcsize] refuses with [struct.error]. *)
Definition _read_unpack_nd (n : Z) (fh : file_handle)
  : result (list float64 * file_handle) :=
  if n <? 0 then raise StructError else
  let k := Z.to_nat n in
  let '(bs, fh') := fh_read (8 * k) fh in
  if (length bs =? 8 * k)%nat
  then ret (map unpack_d (chunks 8 k bs), fh')
  else raise StructError.

(** ** Comparison of the decoded records and [list.sort]

    A decoded record is the Python tuple [((idx,), (x1, ..., xd))].  Tuples
    compare lexicographically: the first position where the two differ (by
    [==]) decides, and if there is none the shorter tuple is the smaller. *)

Abbreviation vector := (list float64).
Abbreviation record := (Z * vector)%type.

Fixpoint vec_lt (v w : list float64) : bool :=
  match v, w with
  | x :: v', y :: w' => if float_eq x y then vec_lt v' w' else float_lt x y
  | [], _ :: _ => true
  | _, [] => false
  end.

(** [a < b] on records: the 1-tuples of indices are compared first, the
    vectors only when the indices are equal. *)
Definition record_lt (a b : record) : bool :=
  if fst a =? fst b then vec_lt (snd a) (snd b) else fst a <? fst b.

(** [list.sort] is stable and uses only [<].  It is modelled by a stable
    insertion sort: an element goes in front of the first element that is
    not smaller than it.  On keys that [<] orders totally every stable sort
    gives this result.  Where [<] is not total on the tuples (two records
    with the same index and a NaN among their values) the order the
    built-in sort leaves can differ; the statements about the order of
    such records below exclude that case. *)
Fixpoint insert_sorted (x : record) (l : list record) : list record :=
  match l with
  | [] => [x]
  | y :: l' => if record_lt y x then y :: insert_sorted x l' else x :: y :: l'
  end.

Definition list_sort (l : list record) : list record :=
  fold_right insert_sorted [] l.

(** ** Constants and call arguments *)

Definition DEFAULT_NO_DIMS : Z := 2.
(** 30.0 *)
Definition DEFAULT_PERPLEXITY : float64 := F64 0x403E000000000000.
(** 0.5 *)
Definition DEFAULT_THETA : float64 := F64 0x3FE0000000000000.
Definition EMPTY_SEED : Z := -1.

(** The arguments of a call of [bh_tsne]; a keyword argument that the
    caller leaves out is [None] and takes the default of the signature. *)
Record call : Type := Call {
  samples : list (list float64);
  no_dims : option Z;
  perplexity : option float64;
  theta : option float64;
  randseed : option Z;
  verbose : option bool;
  sample_dim : option Z
}.

Definition arg_no_dims (c : call) : Z := default DEFAULT_NO_DIMS (no_dims c).
Definition arg_perplexity (c : call) : float64 :=
  default DEFAULT_PERPLEXITY (perplexity c).
Definition arg_theta (c : call) : float64 := default DEFAULT_THETA (theta c).
Definition arg_randseed (c : call) : Z := default EMPTY_SEED (randseed c).
Definition arg_verbose (c : call) : bool := default false (verbose c).

(** ** The world: file system and what was done to it *)

Inductive event : Type :=
| EvMkdtemp (path : string)
| EvWriteFile (dir name : string) (content : list byte)
| EvPopen (cwd : string) (to_stderr : bool)
| EvOpenRead (dir name : string)
| EvRmtree (path : string).

Record world : Type := World {
  fs : gmap string (gmap string (list byte));
  trace : list event
}.

Definition log (e : event) (w : world) : world :=
  World (fs w) (trace w ++ [e]).

(** What the wrapper does not decide: the path [mkdtemp] picks and the
    engine binary, which maps the content of its working directory to the
    content it leaves there and its return code.

    The calls to the operating system are those of a machine in working
    order: [mkdtemp], the opening of [data.dat] for writing, [Popen] and
    [rmtree] themselves succeed.  An [OSError] of [Popen] (a binary that is
    a file and cannot be executed) or of the file system is outside these
    definitions, so only the exceptions the wrapper's own steps raise
    appear below. *)
Record system : Type := System {
  mkdtemp_path : string;
  bh_tsne_bin : gmap string (list byte) -> gmap string (list byte) * Z
}.

(** [TmpDir.__enter__] *)
Definition mkdtemp (sys : system) (w : world) : string * world :=
  let p := mkdtemp_path sys in
  (p, log (EvMkdtemp p) (World (<[p := ∅]> (fs w)) (trace w))).

(** [TmpDir.__exit__] *)
Definition rmtree (p : string) (w : world) : world :=
  log (EvRmtree p) (World (delete p (fs w)) (trace w)).

(** A file opened with ['wb'], written and closed: it holds what was
    written up to the close, also when the block is left by an exception. *)
Definition write_file (d name : string) (content : list byte) (w : world)
  : world :=
  log (EvWriteFile d name content)
      (World (<[d := <[name := content]> (default ∅ (fs w !! d))]> (fs w))
             (trace w)).

Definition open_read (d name : string) (w : world)
  : result file_handle * world :=
  let w' := log (EvOpenRead d name) w in
  match fs w !! d with
  | Some files =>
      match files !! name with
      | Some content => (ret content, w')
      | None => (raise IOError, w')
      end
  | None => (raise IOError, w')
  end.

(** ** The request encoder (lines 110-118) *)

(** The bytes written to [data.dat] and the exception, if any, that ended
    the block. *)
Definition write_request (sample_count sample_dim : Z)
    (theta perplexity : float64) (no_dims : Z)
    (samples : list (list float64)) (randseed : Z)
  : list byte * option exn :=
  match pack_iiddi sample_count sample_dim theta perplexity no_dims with
  | inl e => ([], Some e)
  | inr header =>
      let data :=
        fold_left (fun written sample => written ++ pack_nd sample)
                  samples header in
      if negb (randseed =? EMPTY_SEED)
      then match pack_i randseed with
           | inl e => (data, Some e)
           | inr seed => (data ++ seed, None)
           end
      else (data, None)
  end.

(** ** The engine call (lines 121-130) *)

Definition error_message (verbose : bool) : string :=
  ("ERROR: Call to bh_tsne exited with a non-zero return code exit status, please "
   +:+ (if negb verbose then "enable verbose mode and " else "")
   +:+ "refer to the bh_tsne output for further details")%string.

(** [Popen(..., cwd=tmp_dir_path, stdout=stderr if verbose else dev_null)]
    and [wait()]. *)
Definition popen_wait (sys : system) (cwd : string) (verbose : bool)
    (w : world) : Z * world :=
  let '(files, returncode) := bh_tsne_bin sys (default ∅ (fs w !! cwd)) in
  (returncode,
   log (EvPopen cwd verbose) (World (<[cwd := files]> (fs w)) (trace w))).

Definition call_engine (sys : system) (cwd : string) (verbose : bool)
    (w : world) : result unit * world :=
  let '(returncode, w') := popen_wait sys cwd verbose w in
  (* assert not bh_tsne_p.returncode, message *)
  if returncode =? 0 then (ret tt, w')
  else (raise (AssertionError (error_message verbose)), w').

(** ** The response decoder (lines 133-144) *)

(** [[_read_unpack('{}d'.format(result_dims), output_file)
      for _ in xrange(result_samples)]] *)
Fixpoint read_vectors (n : nat) (result_dims : Z) (fh : file_handle)
  : result (list (list float64) * file_handle) :=
  match n with
  | O => ret ([], fh)
  | S n' =>
      r <- _read_unpack_nd result_dims fh ;;
      rs <- read_vectors n' result_dims (snd r) ;;
      ret (fst r :: fst rs, snd rs)
  end.

(** [[(_read_unpack('i', output_file), e) for e in results]] *)
Fixpoint read_landmarks (results : list (list float64)) (fh : file_handle)
  : result (list record * file_handle) :=
  match results with
  | [] => ret ([], fh)
  | e :: results' =>
      r <- _read_unpack_i fh ;;
      rs <- read_landmarks results' (snd r) ;;
      ret ((fst r, e) :: fst rs, snd rs)
  end.

(** The sorted records and the file from the position the decoder stopped
    at.  The read of the costs that would follow is commented out in the
    source (line 148), so nothing is read after the indices. *)
Definition read_results (fh : file_handle)
  : result (list record * file_handle) :=
  hd <- _read_unpack_ii fh ;;
  let '((result_samples, result_dims), fh1) := hd in
  vs <- read_vectors (Z.to_nat result_samples) result_dims fh1 ;;
  rs <- read_landmarks (fst vs) (snd vs) ;;
  ret (list_sort (fst rs), snd rs).

(** ** The generator [bh_tsne] (lines 97-148) *)

(** A generator object: not started yet, suspended at the [yield] inside
    both [with] blocks (with the directory, the open result file and the
    results still to be yielded), or finished. *)
Inductive gen_state : Type :=
| GStart (c : call)
| GSuspended (tmp_dir_path : string) (output_file : file_handle)
             (pending : list vector)
| GDone.

(** What a call of [next] gives the consumer. *)
Inductive outcome : Type :=
| Yield (v : vector)
| StopIteration
| Raise (e : exn).

(** Lines 101-103: [sample_dim] is the length of the first sample unless
    the caller gave it; [samples[0]] raises [IndexError] on an empty batch. *)
Definition resolve_sample_dim (c : call) : result Z :=
  match sample_dim c with
  | None =>
      match samples c with
      | [] => raise IndexError
      | first :: _ => ret (Z.of_nat (length first))
      end
  | Some d => ret d
  end.

(** The body of [with TmpDir() as tmp_dir_path] up to the sort: the sorted
    records with the result file as the decoder left it, or the exception
    that leaves the block. *)
Definition with_body (sys : system) (c : call) (sample_count sample_dim : Z)
    (tmp_dir_path : string) (w : world)
  : result (list record * file_handle) * world :=
  let '(written, failure) :=
    write_request sample_count sample_dim (arg_theta c) (arg_perplexity c)
                  (arg_no_dims c) (samples c) (arg_randseed c) in
  let w1 := write_file tmp_dir_path "data.dat" written w in
  match failure with
  | Some e => (raise e, w1)
  | None =>
      match call_engine sys tmp_dir_path (arg_verbose c) w1 with
      | (inl e, w2) => (raise e, w2)
      | (inr _, w2) =>
          match open_read tmp_dir_path "result.dat" w2 with
          | (inl e, w3) => (raise e, w3)
          | (inr output_file, w3) => (read_results output_file, w3)
          end
      end
  end.

(** The loop [for _, result in results: yield result]: the next result is
    yielded, or the loop is over, both [with] blocks are left, the
    directory is removed and the generator returns. *)
Definition resume (tmp_dir_path : string) (output_file : file_handle)
    (pending : list vector) (w : world) : outcome * gen_state * world :=
  match pending with
  | v :: rest => (Yield v, GSuspended tmp_dir_path output_file rest, w)
  | [] => (StopIteration, GDone, rmtree tmp_dir_path w)
  end.

(** The first [next]: the body runs from the top.  An exception inside the
    [with] block passes through [TmpDir.__exit__]. *)
Definition start (sys : system) (c : call) (w : world)
  : outcome * gen_state * world :=
  match resolve_sample_dim c with
  | inl e => (Raise e, GDone, w)
  | inr sample_dim =>
      let sample_count := Z.of_nat (length (samples c)) in
      let '(tmp_dir_path, w1) := mkdtemp sys w in
      match with_body sys c sample_count sample_dim tmp_dir_path w1 with
      | (inl e, w2) => (Raise e, GDone, rmtree tmp_dir_path w2)
      | (inr (results, output_file), w2) =>
          resume tmp_dir_path output_file (map snd results) w2
      end
  end.

Definition next (sys : system) (g : gen_state) (w : world)
  : outcome * gen_state * world :=
  match g with
  | GStart c => start sys c w
  | GSuspended tmp_dir_path output_file pending =>
      resume tmp_dir_path output_file pending w
  | GDone => (StopIteration, GDone, w)
  end.

(** [close()], also run when a suspended generator is discarded:
    [GeneratorExit] is raised at the [yield] and leaves the [with] blocks. *)
Definition close (g : gen_state) (w : world) : gen_state * world :=
  match g with
  | GSuspended tmp_dir_path _ _ => (GDone, rmtree tmp_dir_path w)
  | _ => (GDone, w)
  end.

(** [list(g)]: the consumer calls [next] until the generator returns or
    raises; [None] when [fuel] calls were not enough. *)
Fixpoint drain (fuel : nat) (sys : system) (g : gen_state) (w : world)
  : option (result (list vector) * world) :=
  match fuel with
  | O => None
  | S fuel' =>
      match next sys g w with
      | (Yield v, g', w') =>
          match drain fuel' sys g' w' with
          | Some (inr vs, w'') => Some (inr (v :: vs), w'')
          | other => other
          end
      | (StopIteration, _, w') => Some (inr [], w')
      | (Raise e, _, w') => Some (inl e, w')
      end
  end.

(** [list(bh_tsne(samples, ...))] *)
Definition run (fuel : nat) (sys : system) (c : call) (w : world)
  : option (result (list vector) * world) :=
  drain fuel sys (GStart c) w.

(** The reorder stage on its own: sort the records, keep the vectors. *)
Definition reorder (records : list record) : list vector :=
  map snd (list_sort records).

(** Substring test, for the text of error messages. *)
Fixpoint contains (needle hay : string) : bool :=
  if String.prefix needle hay then true
  else match hay with
       | EmptyString => false
       | String _ hay' => contains needle hay'
       end.

(** ** The engine's side of the protocol

    The engine is an external binary; the result files it writes and the
    engines of the test scenarios are described here. *)

(** A 32-bit integer as the engine stores it. *)
Definition int32_bytes (z : Z) : list byte := le_bytes 4 (z mod 2 ^ 32).

(** The result file as the protocol lays it out and the engine writes it:
    [int32 resultCount, int32 resultDims], the embedding values, the origin
    indices, the costs. *)
Definition result_file (count dims : Z) (vectors : list vector)
    (indices : list Z) (costs : list float64) : list byte :=
  int32_bytes count ++ int32_bytes dims
  ++ concat (map pack_nd vectors)
  ++ concat (map int32_bytes indices)
  ++ pack_nd costs.

(** An engine that leaves [file] as [result.dat] (if any) and exits with
    [returncode], whatever the request. *)
Definition engine_writing (returncode : Z) (file : option (list byte))
    (files : gmap string (list byte)) : gmap string (list byte) * Z :=
  (match file with
   | Some content => <["result.dat" := content]> files
   | None => files
   end, returncode).

(** The mock engine of the round-trip property.  It reads [N] and [D] from
    the request, echoes the [N * D] sample values as [N] vectors of [D]
    values, tags them with the indices [0 .. N-1] and appends [N] costs
    (zeros). *)
Definition echo_engine (files : gmap string (list byte))
  : gmap string (list byte) * Z :=
  match files !! "data.dat" with
  | None => (files, 1)
  | Some request =>
      let n := unpack_i (take 4 request) in
      let d := unpack_i (take 4 (drop 4 request)) in
      let values := take (8 * (Z.to_nat n * Z.to_nat d)) (drop 28 request) in
      let content :=
        take 8 request ++ values
        ++ concat (map (fun i => int32_bytes (Z.of_nat i)) (seq 0 (Z.to_nat n)))
        ++ pack_nd (repeat (F64 0) (Z.to_nat n)) in
      (<["result.dat" := content]> files, 0)
  end.

(** Well-formedness of inputs, as executable checks. *)
Definition vector_ok (dims : nat) (v : vector) : bool :=
  (length v =? dims)%nat && forallb float64_ok v.

Definition vectors_ok (dims : nat) (vs : list vector) : bool :=
  forallb (vector_ok dims) vs.

(** ** Definitions used in the statements *)

(** Records ordered by their origin index alone. *)
Definition idx_lt (a b : record) : Prop := fst a < fst b.

(** The file system a generator state stands for once its [with] block is
    left: a suspended generator still holds its directory. *)
Definition fs_without_workspace (g : gen_state) (w : world)
  : gmap string (gmap string (list byte)) :=
  match g with
  | GSuspended tmp_dir_path _ _ => delete tmp_dir_path (fs w)
  | _ => fs w
  end.

Definition finished (o : outcome) (g : gen_state) : Prop :=
  match o with
  | Yield _ => exists p fh pending, g = GSuspended p fh pending
  | _ => g = GDone
  end.

(** The layout of the request file in the words of the spec: the header,
    the values in row-major order and the seed last, when there is one.
    The encoder is compared with it. *)
Definition request_file (n d : Z) (theta perplexity : float64)
    (output_dims : Z) (values : list float64) (seed : option Z) : list byte :=
  int32_bytes n ++ int32_bytes d ++ pack_d theta ++ pack_d perplexity
  ++ int32_bytes output_dims
  ++ concat (map pack_d values)
  ++ match seed with Some s => int32_bytes s | None => [] end.

(** The seed that reaches the file: none for [EMPTY_SEED]. *)
Definition transmitted_seed (randseed : Z) : option Z :=
  if randseed =? EMPTY_SEED then None else Some randseed.

(** The header fields and the seed of a call fit their 32-bit fields. *)
Definition request_ok (c : call) (d : Z) : bool :=
  int32_ok (Z.of_nat (length (samples c))) && int32_ok d
  && int32_ok (arg_no_dims c) && int32_ok (arg_randseed c).

(** The parts of a result file agree with its header. *)
Definition result_ok (count : Z) (dims : nat) (vectors : list vector)
    (indices : list Z) : bool :=
  int32_ok count && int32_ok (Z.of_nat dims)
  && (Z.to_nat count =? length vectors)%nat
  && vectors_ok dims vectors
  && forallb int32_ok indices
  && (length indices =? length vectors)%nat.

(** The request a call writes when nothing is out of range. *)
Definition request_of (c : call) (d : Z) : list byte :=
  request_file (Z.of_nat (length (samples c))) d (arg_theta c)
    (arg_perplexity c) (arg_no_dims c) (concat (samples c))
    (transmitted_seed (arg_randseed c)).

Definition no_files : world := World ∅ [].

(** 1.0 and 0.0 *)
Definition one : float64 := F64 0x3FF0000000000000.
Definition zero : float64 := F64 0.

(** [bh_tsne(samples)], every keyword argument left out. *)
Definition plain_call (samples : list vector) : call :=
  Call samples None None None None None None.

(** [samples = [[1.0, 0.0], [0.0, 1.0]]], [no_dims = 2]. *)
Definition unit_call : call :=
  Call [[one; zero]; [zero; one]] (Some 2) None None None None None.

(** Every sample has [d] values. *)
Definition uniform (d : nat) (samples : list vector) : bool :=
  forallb (fun sample => (length sample =? d)%nat) samples.

(** The seed the caller supplied and that reaches the file. *)
Definition written_seed (c : call) : option Z :=
  match randseed c with
  | Some s => if s =? EMPTY_SEED then None else Some s
  | None => None
  end.

(** The trace of a run whose steps are known. *)
Ltac trace_of_run :=
  unfold raise, ret;
  cbn [resume snd rmtree log trace write_file];
  rewrite <- ?app_assoc; cbn [app]; reflexivity.

(** [k] calls of [next]. *)
Fixpoint advance (k : nat) (sys : system) (g : gen_state) (w : world)
  : gen_state * world :=
  match k with
  | O => (g, w)
  | S k' =>
      let '(_, g', w') := next sys g w in
      advance k' sys g' w'
  end.

(** The indices [0 .. n-1]. *)
Definition identity_indices (n : nat) : list Z := map Z.of_nat (seq 0 n).

(** The call [c] with another [randseed] argument. *)
Definition with_randseed (c : call) (seed : option Z) : call :=
  Call (samples c) (no_dims c) (perplexity c) (theta c) seed (verbose c)
       (sample_dim c).

(** ** The worlds along a call

    The world after the request was written, after the engine has run and
    after the result file was opened, with [written] the bytes of the
    request and [files] the content the engine leaves in the directory. *)

Definition after_write (sys : system) (written : list byte) (w : world)
  : world :=
  write_file (mkdtemp_path sys) "data.dat" written (mkdtemp sys w).2.

Definition after_engine (sys : system) (verbose : bool)
    (files : gmap string (list byte)) (written : list byte) (w : world)
  : world :=
  log (EvPopen (mkdtemp_path sys) verbose)
      (World (<[mkdtemp_path sys := files]> (fs (after_write sys written w)))
             (trace (after_write sys written w))).

Definition after_open (sys : system) (verbose : bool)
    (files : gmap string (list byte)) (written : list byte) (w : world)
  : world :=
  log (EvOpenRead (mkdtemp_path sys) "result.dat")
      (after_engine sys verbose files written w).

(** The number of bytes the decoder consumes for a header that announces
    [count] records of [dims] values. *)
Definition consumed_bytes (count dims : Z) : nat :=
  (8 + Z.to_nat count * (8 * Z.to_nat dims + 4))%nat.

(** Records in non-decreasing order of their origin index. *)
Definition idx_le (a b : record) : Prop := fst a <= fst b.

(** The traces of the worlds along a call. *)
Ltac trace_along :=
  unfold after_open, after_engine, after_write, write_file, mkdtemp;
  cbn [trace log rmtree snd];
  rewrite <- ?app_assoc; reflexivity.

(** No component of the vector of a record is a NaN. *)
Definition nan_free (r : record) : bool :=
  forallb (fun x => negb (is_nan x)) (snd r).

(** [not (b < a)] on records: [a] may stand in front of [b]. *)
Definition record_le (a b : record) : Prop := record_lt b a = false.

(** Case analysis on the comparisons of the first components, given the
    two lemmas that express the comparisons of floats on their keys. *)
Ltac compare_keys eq_key lt_key :=
  repeat match goal with
         | H : negb (is_nan _) = true |- _ => apply negb_true_iff in H
         end;
  repeat (rewrite eq_key in * by assumption);
  repeat (rewrite lt_key in * by assumption);
  repeat match goal with
         | |- context [?a =? ?b] => destruct (Z.eqb_spec a b)
         | H : context [?a =? ?b] |- _ => destruct (Z.eqb_spec a b)
         | |- context [?a <? ?b] => destruct (Z.ltb_spec a b)
         | H : context [?a <? ?b] |- _ => destruct (Z.ltb_spec a b)
         end;
  try discriminate; try lia; auto.

(** ** The caller [produce_MNIST_plot] (lines 160-169)

    Only the collection of the results is modelled; what follows it in the
    source is floating-point arithmetic and plotting. *)

(** [[results = []; for result in bh_tsne(data):
      results = np.concatenate((results, np.asarray(result)))]] *)
Definition concatenate_results (yielded : list vector) : list float64 :=
  fold_left (fun results result => results ++ result) yielded [].

(** The first [n] rows of [cols] values of a flat array. *)
Fixpoint split_rows (cols n : nat) (a : list float64) : list vector :=
  match n with
  | O => []
  | S n' => take cols a :: split_rows cols n' (drop cols a)
  end.

(** [np.reshape(results, (-1, 2))]: [None] stands for the [ValueError] that
    numpy raises when the size is odd. *)
Definition reshape_2 (a : list float64) : option (list vector) :=
  if (length a mod 2 =? 0)%nat
  then Some (split_rows 2 (length a / 2) a)
  else None.

(** * Properties *)

(** ** The codec *)

Lemma Z_of_byte_of_Z (z : Z) : Z_of_byte (byte_of_Z z) = z mod 256.
Proof.
  unfold Z_of_byte, byte_of_Z.
  assert (Hr : 0 <= z mod 256 < 256) by (apply Z.mod_pos_bound; lia).
  destruct (Byte.of_N (Z.to_N (z mod 256))) as [b|] eqn:E.
  - apply Byte.to_of_N in E. simpl. rewrite E. lia.
  - apply Byte.of_N_None_iff in E. lia.
Qed.

Lemma length_le_bytes (n : nat) (z : Z) : length (le_bytes n z) = n.
Proof. revert z; induction n as [|n IH]; intros z; simpl; [|rewrite IH]; reflexivity. Qed.

Lemma le_value_le_bytes (n : nat) (z : Z) :
  le_value (le_bytes n z) = z mod 256 ^ Z.of_nat n.
Proof.
  revert z; induction n as [|n IH]; intros z.
  - simpl. now rewrite Z.mod_1_r.
  - cbn [le_bytes le_value]. rewrite Z_of_byte_of_Z, IH.
    rewrite Nat2Z.inj_succ, Z.pow_succ_r by lia.
    rewrite Z.rem_mul_r by lia. reflexivity.
Qed.

Lemma unpack_i_int32_bytes (z : Z) :
  int32_ok z = true -> unpack_i (int32_bytes z) = z.
Proof.
  unfold int32_ok, INT_MIN, INT_MAX, unpack_i, int32_bytes. intros H.
  apply andb_true_iff in H as [H1 H2].
  apply Z.leb_le in H1, H2.
  rewrite le_value_le_bytes.
  change (256 ^ Z.of_nat 4) with (2 ^ 32).
  rewrite Z.mod_mod by lia.
  destruct (Z.ltb_spec (z mod 2 ^ 32) (2 ^ 31)) as [Hlt|Hge].
  - destruct (Z.neg_nonneg_cases z) as [Hn|Hn].
    + rewrite <- (Z.mod_add z 1) in Hlt by lia.
      rewrite Z.mod_small in Hlt by lia. lia.
    + apply Z.mod_small. lia.
  - destruct (Z.neg_nonneg_cases z) as [Hn|Hn].
    + rewrite <- (Z.mod_add z 1) by lia.
      rewrite Z.mod_small by lia. lia.
    + rewrite Z.mod_small in Hge by lia. lia.
Qed.

Lemma pack_i_ok (z : Z) : int32_ok z = true -> pack_i z = ret (int32_bytes z).
Proof. unfold pack_i. now intros ->. Qed.

Lemma pack_i_raises (z : Z) : int32_ok z = false -> pack_i z = raise StructError.
Proof. unfold pack_i. now intros ->. Qed.

Lemma length_int32_bytes (z : Z) : length (int32_bytes z) = 4%nat.
Proof. apply length_le_bytes. Qed.

Lemma length_pack_d (f : float64) : length (pack_d f) = 8%nat.
Proof. apply length_le_bytes. Qed.

Lemma unpack_d_pack_d (f : float64) :
  float64_ok f = true -> unpack_d (pack_d f) = f.
Proof.
  destruct f as [b]. unfold float64_ok, unpack_d, pack_d. cbn [bits]. intros H.
  apply andb_true_iff in H as [H1 H2].
  apply Z.leb_le in H1. apply Z.ltb_lt in H2.
  rewrite le_value_le_bytes.
  change (256 ^ Z.of_nat 8) with (2 ^ 64).
  now rewrite Z.mod_small by lia.
Qed.

Lemma length_pack_nd (v : vector) : length (pack_nd v) = (8 * length v)%nat.
Proof.
  unfold pack_nd. induction v as [|x v IH]; [reflexivity|].
  cbn [map concat]. rewrite length_app, IH, length_pack_d. simpl. lia.
Qed.

Lemma chunks_pack_nd (v : vector) (rest : list byte) :
  forallb float64_ok v = true ->
  map unpack_d (chunks 8 (length v) (pack_nd v ++ rest)) = v.
Proof.
  unfold pack_nd. induction v as [|x v IH]; intros H; [reflexivity|].
  cbn [forallb] in H. apply andb_true_iff in H as [Hx Hv].
  cbn [map concat length chunks].
  rewrite <- app_assoc.
  rewrite (take_app_length' _ _ 8) by (symmetry; apply length_pack_d).
  rewrite (drop_app_length' _ _ 8) by (symmetry; apply length_pack_d).
  rewrite unpack_d_pack_d by assumption.
  now rewrite IH.
Qed.

(** ** The decoder on a well-formed result file *)

Lemma _read_unpack_ii_ok (a b : Z) (rest : list byte) :
  int32_ok a = true -> int32_ok b = true ->
  _read_unpack_ii (int32_bytes a ++ int32_bytes b ++ rest) = ret ((a, b), rest).
Proof.
  intros Ha Hb. unfold _read_unpack_ii, fh_read.
  rewrite app_assoc.
  assert (Hlen : length (int32_bytes a ++ int32_bytes b) = 8%nat)
    by (rewrite length_app, !length_int32_bytes; reflexivity).
  rewrite (take_app_length' _ _ 8), (drop_app_length' _ _ 8) by now rewrite Hlen.
  rewrite Hlen. cbn [Nat.eqb].
  rewrite (take_app_length' _ _ 4), (drop_app_length' _ _ 4)
    by now rewrite length_int32_bytes.
  now rewrite !unpack_i_int32_bytes.
Qed.

Lemma _read_unpack_i_ok (a : Z) (rest : list byte) :
  int32_ok a = true ->
  _read_unpack_i (int32_bytes a ++ rest) = ret (a, rest).
Proof.
  intros Ha. unfold _read_unpack_i, fh_read.
  rewrite (take_app_length' _ _ 4), (drop_app_length' _ _ 4)
    by now rewrite length_int32_bytes.
  rewrite length_int32_bytes. cbn [Nat.eqb].
  now rewrite unpack_i_int32_bytes.
Qed.

Lemma _read_unpack_nd_ok (dims : nat) (v : vector) (rest : list byte) :
  vector_ok dims v = true ->
  _read_unpack_nd (Z.of_nat dims) (pack_nd v ++ rest) = ret (v, rest).
Proof.
  unfold vector_ok. intros H. apply andb_true_iff in H as [Hl Hv].
  apply Nat.eqb_eq in Hl. subst dims.
  unfold _read_unpack_nd, fh_read.
  destruct (Z.ltb_spec (Z.of_nat (length v)) 0) as [Hneg|_]; [lia|].
  rewrite Nat2Z.id.
  rewrite (take_app_length' _ _ (8 * length v)), (drop_app_length' _ _ (8 * length v))
    by now rewrite length_pack_nd.
  rewrite length_pack_nd, Nat.eqb_refl.
  rewrite <- (app_nil_r (pack_nd v)) at 1.
  now rewrite chunks_pack_nd.
Qed.

Lemma read_vectors_ok (dims : nat) (vs : list vector) (rest : list byte) :
  vectors_ok dims vs = true ->
  read_vectors (length vs) (Z.of_nat dims) (concat (map pack_nd vs) ++ rest)
  = ret (vs, rest).
Proof.
  unfold vectors_ok. induction vs as [|v vs IH]; intros H; [reflexivity|].
  cbn [forallb] in H. apply andb_true_iff in H as [Hv Hvs].
  cbn [length map concat read_vectors].
  rewrite <- app_assoc, _read_unpack_nd_ok by assumption.
  cbn [bind ret fst snd]. rewrite IH by assumption. reflexivity.
Qed.

Lemma read_landmarks_ok (vs : list vector) (indices : list Z)
    (rest : list byte) :
  forallb int32_ok indices = true ->
  length indices = length vs ->
  read_landmarks vs (concat (map int32_bytes indices) ++ rest)
  = ret (combine indices vs, rest).
Proof.
  revert indices. induction vs as [|v vs IH]; intros [|i indices] Hok Hlen;
    try discriminate; [reflexivity|].
  cbn [forallb] in Hok. apply andb_true_iff in Hok as [Hi Hok].
  cbn [map concat read_landmarks combine].
  rewrite <- app_assoc, _read_unpack_i_ok by assumption.
  cbn [bind ret fst snd]. rewrite IH by (auto; simpl in Hlen; lia).
  reflexivity.
Qed.

(** On a file laid out as the protocol says, the decoder returns the sorted
    records and stops in front of the costs. *)
Lemma read_results_ok (count : Z) (dims : nat) (vectors : list vector)
    (indices : list Z) (costs : list float64) (extra : list byte) :
  int32_ok count = true ->
  int32_ok (Z.of_nat dims) = true ->
  Z.to_nat count = length vectors ->
  vectors_ok dims vectors = true ->
  forallb int32_ok indices = true ->
  length indices = length vectors ->
  read_results (result_file count (Z.of_nat dims) vectors indices costs ++ extra)
  = ret (list_sort (combine indices vectors), pack_nd costs ++ extra).
Proof.
  intros Hc Hd Hn Hv Hi Hl. unfold read_results, result_file.
  rewrite <- !app_assoc, _read_unpack_ii_ok by assumption.
  cbn [bind ret]. rewrite Hn, read_vectors_ok by assumption.
  cbn [bind ret fst snd]. rewrite read_landmarks_ok by assumption.
  reflexivity.
Qed.

(** ** The sort *)

Lemma record_lt_idx (a b : record) :
  fst a <> fst b -> record_lt a b = (fst a <? fst b).
Proof.
  intros Hne. unfold record_lt.
  destruct (Z.eqb_spec (fst a) (fst b)); [contradiction|reflexivity].
Qed.

Lemma insert_sorted_perm (x : record) (l : list record) :
  Permutation (insert_sorted x l) (x :: l).
Proof.
  induction l as [|y l IH]; simpl; [reflexivity|].
  destruct (record_lt y x); [|reflexivity].
  rewrite IH. apply perm_swap.
Qed.

Lemma list_sort_perm (l : list record) : Permutation (list_sort l) l.
Proof.
  induction l as [|x l IH]; simpl; [reflexivity|].
  rewrite insert_sorted_perm. now constructor.
Qed.

Lemma length_list_sort (l : list record) : length (list_sort l) = length l.
Proof. apply Permutation_length, list_sort_perm. Qed.

Lemma length_reorder (l : list record) : length (reorder l) = length l.
Proof. unfold reorder. now rewrite length_map, length_list_sort. Qed.

Lemma insert_sorted_idx (x : record) (l : list record) :
  StronglySorted idx_lt l ->
  ~ In (fst x) (map fst l) ->
  StronglySorted idx_lt (insert_sorted x l).
Proof.
  induction l as [|y l IH]; intros Hs Hx; simpl.
  - repeat constructor.
  - apply StronglySorted_inv in Hs as [Hs Hy].
    assert (Hne : fst y <> fst x) by (intros E; apply Hx; left; exact E).
    rewrite record_lt_idx by assumption.
    destruct (Z.ltb_spec (fst y) (fst x)) as [Hlt|Hge].
    + constructor.
      * apply IH; [assumption|]. intros Hin. apply Hx. now right.
      * eapply Permutation_Forall.
        { symmetry. apply insert_sorted_perm. }
        constructor; assumption.
    + assert (Hxy : idx_lt x y) by (unfold idx_lt; lia).
      constructor; [now constructor|].
      constructor; [assumption|].
      eapply Forall_impl; [exact Hy|].
      intros z Hz. unfold idx_lt in *. lia.
Qed.

Lemma list_sort_idx (l : list record) :
  List.NoDup (map fst l) -> StronglySorted idx_lt (list_sort l).
Proof.
  induction l as [|x l IH]; intros Hnd; simpl; [constructor|].
  apply List.NoDup_cons_iff in Hnd as [Hx Hnd].
  apply insert_sorted_idx; [now apply IH|].
  intros Hin. apply Hx.
  eapply Permutation_in; [|exact Hin].
  apply Permutation_map, list_sort_perm.
Qed.

(** Records already in the order of their indices are left as they are. *)
Lemma list_sort_sorted (l : list record) :
  StronglySorted idx_lt l -> list_sort l = l.
Proof.
  induction l as [|x l IH]; intros Hs; [reflexivity|].
  apply StronglySorted_inv in Hs as [Hs Hx].
  simpl. rewrite IH by assumption.
  destruct l as [|y l]; [reflexivity|].
  simpl. apply Forall_inv in Hx. unfold idx_lt in Hx.
  rewrite record_lt_idx by lia.
  destruct (Z.ltb_spec (fst y) (fst x)); [lia|reflexivity].
Qed.

Lemma idx_lt_map_fst (l : list record) :
  StronglySorted idx_lt l -> StronglySorted Z.lt (map fst l).
Proof.
  induction 1 as [|x l Hs IH Hx]; simpl; constructor; [assumption|].
  apply List.Forall_map. exact Hx.
Qed.

Lemma identity_indices_sorted (start n : nat) :
  StronglySorted Z.lt (map Z.of_nat (seq start n)).
Proof.
  revert start. induction n as [|n IH]; intros start; simpl; constructor.
  - apply IH.
  - apply List.Forall_map, List.Forall_forall. intros k Hk.
    apply in_seq in Hk. lia.
Qed.

Lemma combine_identity_sorted (start : nat) (vs : list vector) :
  StronglySorted idx_lt
    (combine (map Z.of_nat (seq start (length vs))) vs).
Proof.
  revert start. induction vs as [|v vs IH]; intros start; simpl; constructor.
  - apply IH.
  - apply List.Forall_forall. intros [i w] Hin.
    apply in_combine_l in Hin. apply in_map_iff in Hin as (k & <- & Hk).
    apply in_seq in Hk. unfold idx_lt. simpl. lia.
Qed.

(** With indices that are a permutation of [0 .. N-1], the sort puts the
    record with index [i] at position [i]. *)
Lemma list_sort_position (records : list record) (N i : nat) (v : vector) :
  Permutation (map fst records) (map Z.of_nat (seq 0 N)) ->
  In (Z.of_nat i, v) records ->
  nth_error (list_sort records) i = Some (Z.of_nat i, v).
Proof.
  intros Hperm Hin.
  assert (Hnd : List.NoDup (map fst records)).
  { eapply Permutation_NoDup; [symmetry; exact Hperm|].
    apply Finite.Injective_map_NoDup; [|apply List.seq_NoDup].
    intros a b. apply Nat2Z.inj. }
  assert (Hfst : map fst (list_sort records) = map Z.of_nat (seq 0 N)).
  { apply (StronglySorted_unique_strong Z.lt).
    - intros; lia.
    - apply idx_lt_map_fst, list_sort_idx, Hnd.
    - apply identity_indices_sorted.
    - rewrite <- Hperm. apply Permutation_map, list_sort_perm. }
  assert (Hin' : In (Z.of_nat i, v) (list_sort records)).
  { eapply Permutation_in; [symmetry; apply list_sort_perm|exact Hin]. }
  apply In_nth_error in Hin' as [k Hk].
  assert (Hki : nth_error (map fst (list_sort records)) k = Some (Z.of_nat i))
    by (rewrite nth_error_map, Hk; reflexivity).
  rewrite Hfst, nth_error_map in Hki.
  rewrite List.nth_error_seq in Hki.
  destruct (k <? N)%nat; [|discriminate].
  simpl in Hki. injection Hki as Hki. apply Nat2Z.inj in Hki.
  subst i. exact Hk.
Qed.

(** ** The generator and the file system *)

Lemma fs_log (e : event) (w : world) : fs (log e w) = fs w.
Proof. reflexivity. Qed.

Lemma fs_rmtree (p : string) (w : world) : fs (rmtree p w) = delete p (fs w).
Proof. reflexivity. Qed.

Lemma fs_mkdtemp (sys : system) (w : world) :
  fs (snd (mkdtemp sys w)) = <[mkdtemp_path sys := ∅]> (fs w).
Proof. reflexivity. Qed.

Lemma fs_write_file (d name : string) (content : list byte) (w : world) :
  delete d (fs (write_file d name content w)) = delete d (fs w).
Proof. unfold write_file. cbn [fs log]. apply delete_insert_eq. Qed.

Lemma fs_call_engine (sys : system) (cwd : string) (verbose : bool)
    (w : world) :
  delete cwd (fs (snd (call_engine sys cwd verbose w))) = delete cwd (fs w).
Proof.
  unfold call_engine, popen_wait.
  destruct (bh_tsne_bin sys _) as [files returncode].
  destruct (returncode =? 0); cbn [snd fs log]; apply delete_insert_eq.
Qed.

Lemma fs_open_read (d name : string) (w : world) :
  fs (snd (open_read d name w)) = fs w.
Proof.
  unfold open_read.
  destruct (fs w !! d) as [files|]; [destruct (files !! name)|]; reflexivity.
Qed.

(** Inside the [with] block only the temporary directory changes. *)
Lemma fs_with_body (sys : system) (c : call) (sample_count sample_dim : Z)
    (tmp_dir_path : string) (w : world) :
  delete tmp_dir_path
    (fs (snd (with_body sys c sample_count sample_dim tmp_dir_path w)))
  = delete tmp_dir_path (fs w).
Proof.
  unfold with_body.
  destruct (write_request _ _ _ _ _ _ _) as [written failure].
  set (w1 := write_file tmp_dir_path "data.dat" written w).
  assert (H1 : delete tmp_dir_path (fs w1) = delete tmp_dir_path (fs w))
    by apply fs_write_file.
  destruct failure as [e|]; [exact H1|].
  pose proof (fs_call_engine sys tmp_dir_path (arg_verbose c) w1) as H2.
  destruct (call_engine sys tmp_dir_path (arg_verbose c) w1) as [[e|[]] w2];
    cbn [snd] in H2; [cbn [snd]; congruence|].
  pose proof (fs_open_read tmp_dir_path "result.dat" w2) as H3.
  destruct (open_read tmp_dir_path "result.dat" w2) as [[e|output_file] w3];
    cbn [snd] in *; congruence.
Qed.

Lemma resume_finished (p : string) (fh : file_handle)
    (pending : list vector) (w : world) :
  finished (resume p fh pending w).1.1 (resume p fh pending w).1.2.
Proof.
  destruct pending as [|v rest]; cbn; [reflexivity|]. now exists p, fh, rest.
Qed.

Lemma next_finished (sys : system) (g : gen_state) (w : world) :
  finished (next sys g w).1.1 (next sys g w).1.2.
Proof.
  destruct g as [c|p fh pending|]; cbn [next];
    [|apply resume_finished|reflexivity].
  unfold start.
  destruct (resolve_sample_dim c) as [e|d]; [reflexivity|].
  cbn [mkdtemp].
  destruct (with_body _ _ _ _ _ _) as [[e|[results output_file]] w2];
    [reflexivity|apply resume_finished].
Qed.

Lemma resume_fs (p : string) (fh : file_handle) (pending : list vector)
    (w : world) :
  fs_without_workspace (resume p fh pending w).1.2 (resume p fh pending w).2
  = delete p (fs w).
Proof. destruct pending as [|v rest]; reflexivity. Qed.

Lemma start_fs (sys : system) (c : call) (w : world) :
  fs w !! mkdtemp_path sys = None ->
  fs_without_workspace (start sys c w).1.2 (start sys c w).2 = fs w.
Proof.
  intros Hfresh. unfold start.
  destruct (resolve_sample_dim c) as [e|d]; [reflexivity|].
  cbn [mkdtemp].
  set (w1 := log _ _).
  assert (H1 : delete (mkdtemp_path sys) (fs w1) = fs w).
  { subst w1. cbn [fs log]. rewrite delete_insert_eq. now apply delete_id. }
  pose proof (fs_with_body sys c (Z.of_nat (length (samples c))) d
                (mkdtemp_path sys) w1) as H2.
  destruct (with_body sys c _ d (mkdtemp_path sys) w1)
    as [[e|[results output_file]] w2]; cbn [snd] in H2.
  - cbn. congruence.
  - rewrite resume_fs. congruence.
Qed.

(** One [next] keeps everything outside the workspace as it was, and the
    workspace is gone as soon as the generator is finished. *)
Lemma next_fs (sys : system) (g : gen_state) (w : world) :
  (forall c, g = GStart c -> fs w !! mkdtemp_path sys = None) ->
  fs_without_workspace (next sys g w).1.2 (next sys g w).2
  = fs_without_workspace g w.
Proof.
  intros Hfresh. destruct g as [c|p fh pending|]; cbn [next].
  - apply start_fs. now apply (Hfresh c).
  - apply resume_fs.
  - reflexivity.
Qed.

Lemma drain_fs (fuel : nat) (sys : system) (g : gen_state) (w : world)
    (out : result (list vector)) (w' : world) :
  (forall c, g = GStart c -> fs w !! mkdtemp_path sys = None) ->
  drain fuel sys g w = Some (out, w') ->
  fs w' = fs_without_workspace g w.
Proof.
  revert g w out w'. induction fuel as [|fuel IH]; intros g w out w' Hfresh Hd;
    [discriminate|].
  cbn [drain] in Hd.
  pose proof (next_fs sys g w Hfresh) as Hfs.
  pose proof (next_finished sys g w) as Hf.
  destruct (next sys g w) as [[o g1] w1]. cbn [fst snd] in Hfs, Hf.
  destruct o as [v| |e]; cbn [finished] in Hf.
  - destruct Hf as (p & fh & pending & ->).
    destruct (drain fuel sys (GSuspended p fh pending) w1)
      as [[[e|vs] w2]|] eqn:Hrec; try discriminate;
      injection Hd as <- <-;
      (erewrite IH; [exact Hfs| |exact Hrec]); intros c0 Hc0; discriminate.
  - subst g1. injection Hd as <- <-. exact Hfs.
  - subst g1. injection Hd as <- <-. exact Hfs.
Qed.

Lemma drain_S (fuel : nat) (sys : system) (g : gen_state) (w : world) :
  drain (S fuel) sys g w
  = match next sys g w with
    | (Yield v, g', w') =>
        match drain fuel sys g' w' with
        | Some (inr vs, w'') => Some (inr (v :: vs), w'')
        | other => other
        end
    | (StopIteration, _, w') => Some (inr [], w')
    | (Raise e, _, w') => Some (inl e, w')
    end.
Proof. reflexivity. Qed.

(** Draining a suspended generator: the pending results, then the end of
    the [with] block. *)
Lemma drain_suspended (sys : system) (p : string) (fh : file_handle)
    (pending : list vector) (w : world) (extra : nat) :
  drain (S (length pending) + extra) sys (GSuspended p fh pending) w
  = Some (inr pending, rmtree p w).
Proof.
  induction pending as [|v rest IH]; [reflexivity|].
  change (S (length (v :: rest)) + extra)%nat
    with (S (S (length rest) + extra)).
  cbn [drain]. cbn [next resume]. now rewrite IH.
Qed.

(** Draining from a state whose next step is known. *)
Lemma drain_resume (sys : system) (g : gen_state) (w w1 : world) (p : string)
    (fh : file_handle) (pending : list vector) (extra : nat) :
  next sys g w = resume p fh pending w1 ->
  drain (S (length pending) + extra) sys g w
  = Some (inr pending, rmtree p w1).
Proof.
  intros Hn. rewrite <- (drain_suspended sys p fh pending w1 extra).
  cbn [Nat.add drain next]. now rewrite Hn.
Qed.

(** Every call of [list(bh_tsne(...))] comes to an end. *)
Lemma run_terminates (sys : system) (c : call) (w : world) :
  exists fuel out w', run fuel sys c w = Some (out, w').
Proof.
  unfold run.
  pose proof (next_finished sys (GStart c) w) as Hf.
  destruct (next sys (GStart c) w) as [[o g1] w1] eqn:Hn. cbn [fst snd] in Hf.
  destruct o as [v| |e]; cbn [finished] in Hf.
  - destruct Hf as (p & fh & pending & ->).
    exists (S (S (length pending) + 0)), (inr (v :: pending)), (rmtree p w1).
    now rewrite drain_S, Hn, drain_suspended.
  - exists 1%nat, (inr []), w1. now rewrite drain_S, Hn.
  - exists 1%nat, (inl e), w1. now rewrite drain_S, Hn.
Qed.

(** ** The encoder *)

Lemma fold_left_written (samples : list vector) (header : list byte) :
  fold_left (fun written sample => written ++ pack_nd sample) samples header
  = header ++ concat (map pack_nd samples).
Proof.
  revert header. induction samples as [|s samples IH]; intros header; simpl.
  - now rewrite app_nil_r.
  - now rewrite IH, app_assoc.
Qed.

Lemma pack_nd_concat (samples : list vector) :
  concat (map pack_nd samples) = concat (map pack_d (concat samples)).
Proof.
  unfold pack_nd. induction samples as [|s samples IH]; [reflexivity|].
  cbn [map concat]. now rewrite map_app, concat_app, IH.
Qed.

Lemma write_request_ok (n d : Z) (theta perplexity : float64) (output_dims : Z)
    (samples : list vector) (randseed : Z) :
  int32_ok n = true -> int32_ok d = true -> int32_ok output_dims = true ->
  int32_ok randseed = true ->
  write_request n d theta perplexity output_dims samples randseed
  = (request_file n d theta perplexity output_dims (concat samples)
       (transmitted_seed randseed), None).
Proof.
  intros Hn Hd Ho Hs. unfold write_request, pack_iiddi, transmitted_seed.
  rewrite !pack_i_ok by assumption. cbn [bind ret].
  rewrite fold_left_written, pack_nd_concat. unfold request_file.
  destruct (randseed =? EMPTY_SEED); cbn [negb].
  - now rewrite <- !app_assoc, app_nil_r.
  - now rewrite <- !app_assoc.
Qed.

(** ** A run in which nothing fails *)

Lemma next_start_ok (sys : system) (c : call) (w : world) (d : Z)
    (written : list byte) (files : gmap string (list byte))
    (content : list byte) (records : list record) (rest : file_handle) :
  resolve_sample_dim c = ret d ->
  write_request (Z.of_nat (length (samples c))) d (arg_theta c)
    (arg_perplexity c) (arg_no_dims c) (samples c) (arg_randseed c)
  = (written, None) ->
  bh_tsne_bin sys (<["data.dat" := written]> ∅) = (files, 0) ->
  files !! "result.dat" = Some content ->
  read_results content = ret (records, rest) ->
  exists w1,
    next sys (GStart c) w
    = resume (mkdtemp_path sys) rest (map snd records) w1
    /\ trace w1
       = trace w ++ [EvMkdtemp (mkdtemp_path sys);
                     EvWriteFile (mkdtemp_path sys) "data.dat" written;
                     EvPopen (mkdtemp_path sys) (arg_verbose c);
                     EvOpenRead (mkdtemp_path sys) "result.dat"].
Proof.
  intros Hd Hw He Hf Hr. cbn [next]. unfold start. rewrite Hd.
  cbn [ret mkdtemp]. unfold with_body. rewrite Hw.
  unfold call_engine, popen_wait, write_file. cbn [fs log trace].
  rewrite !lookup_insert_eq. cbn [default from_option]. unfold id. rewrite He.
  cbn [Z.eqb ret]. unfold open_read. cbn [fs log trace].
  rewrite lookup_insert_eq. cbv beta iota. rewrite Hf. unfold ret.
  cbv beta iota. rewrite Hr. unfold ret. cbv beta iota.
  eexists. split; [reflexivity|].
  cbn [trace log]. now rewrite <- !app_assoc.
Qed.

Lemma run_ok (sys : system) (c : call) (w : world) (d : Z)
    (written : list byte) (files : gmap string (list byte))
    (content : list byte) (records : list record) (rest : file_handle)
    (extra : nat) :
  resolve_sample_dim c = ret d ->
  write_request (Z.of_nat (length (samples c))) d (arg_theta c)
    (arg_perplexity c) (arg_no_dims c) (samples c) (arg_randseed c)
  = (written, None) ->
  bh_tsne_bin sys (<["data.dat" := written]> ∅) = (files, 0) ->
  files !! "result.dat" = Some content ->
  read_results content = ret (records, rest) ->
  exists w',
    run (S (length records) + extra) sys c w = Some (inr (map snd records), w').
Proof.
  intros Hd Hw He Hf Hr.
  destruct (next_start_ok sys c w d written files content records rest
              Hd Hw He Hf Hr) as (w1 & Hn & _).
  exists (rmtree (mkdtemp_path sys) w1). unfold run.
  rewrite <- (length_map snd records).
  now apply (drain_resume sys (GStart c) w w1 (mkdtemp_path sys) rest).
Qed.

Lemma write_request_of (c : call) (d : Z) :
  request_ok c d = true ->
  write_request (Z.of_nat (length (samples c))) d (arg_theta c)
    (arg_perplexity c) (arg_no_dims c) (samples c) (arg_randseed c)
  = (request_of c d, None).
Proof.
  unfold request_ok. rewrite !andb_true_iff. intros [[[Hn Hd] Ho] Hs].
  now apply write_request_ok.
Qed.

Lemma read_results_of (count : Z) (dims : nat) (vectors : list vector)
    (indices : list Z) (costs : list float64) (extra : list byte) :
  result_ok count dims vectors indices = true ->
  read_results (result_file count (Z.of_nat dims) vectors indices costs ++ extra)
  = ret (list_sort (combine indices vectors), pack_nd costs ++ extra).
Proof.
  unfold result_ok. rewrite !andb_true_iff.
  intros [[[[[Hc Hd] Hn] Hv] Hi] Hl].
  apply Nat.eqb_eq in Hn, Hl. now apply read_results_ok.
Qed.

(** A run with an engine that exits with 0 and leaves a well-formed result
    file: the consumer gets the vectors in the order of their indices. *)
Lemma run_well_formed (sys : system) (c : call) (w : world) (d count : Z)
    (dims : nat) (vectors : list vector) (indices : list Z)
    (costs : list float64) (extra : list byte)
    (files : gmap string (list byte)) (more : nat) :
  resolve_sample_dim c = ret d ->
  request_ok c d = true ->
  bh_tsne_bin sys (<["data.dat" := request_of c d]> ∅) = (files, 0) ->
  files !! "result.dat"
  = Some (result_file count (Z.of_nat dims) vectors indices costs ++ extra) ->
  result_ok count dims vectors indices = true ->
  exists w',
    run (S (length vectors) + more) sys c w
    = Some (inr (reorder (combine indices vectors)), w').
Proof.
  intros Hd Hreq He Hf Hres.
  assert (Hlen : length (list_sort (combine indices vectors)) = length vectors).
  { rewrite length_list_sort, length_combine.
    unfold result_ok in Hres. rewrite !andb_true_iff in Hres.
    destruct Hres as [_ Hl]. apply Nat.eqb_eq in Hl. lia. }
  rewrite <- Hlen. unfold reorder.
  eapply run_ok; eauto using write_request_of, read_results_of.
Qed.

(** * The claims *)

(** ** C1: the reorder stage *)

(** C1.  Reorder stage: when the decoded records carry the origin indices
    [0 .. N-1], each once and in any order, the [i]-th vector of the output
    is the vector of the record with index [i], and there are [N] of them.
    In the scenario of the spec (samples [[1.0, 0.0], [0.0, 1.0]], two
    output dimensions, an engine that emits (1, [a, b]) and then
    (0, [c, d])) the call yields [[c, d], [a, b]]. *)
Theorem reorder_restores_input_order
    (records : list record) (N : nat) (a b c d : float64) (tmp : string)
    (costs : list float64) (w : world) :
  Permutation (map fst records) (map Z.of_nat (seq 0 N)) ->
  forallb float64_ok [a; b; c; d] = true ->
  (length (reorder records) = N
   /\ forall (i : nat) (v : vector),
        In (Z.of_nat i, v) records -> nth_error (reorder records) i = Some v)
  /\ exists w',
       run 3 (System tmp
                (engine_writing 0
                   (Some (result_file 2 2 [[a; b]; [c; d]] [1; 0] costs))))
           unit_call w
       = Some (inr [[c; d]; [a; b]], w').
Proof.
  intros Hperm Hfl. split; [split|].
  - rewrite length_reorder, <- (length_map fst), (Permutation_length Hperm).
    now rewrite length_map, length_seq.
  - intros i v Hin. unfold reorder.
    rewrite nth_error_map, (list_sort_position records N i v Hperm Hin).
    reflexivity.
  - cbn [forallb] in Hfl. rewrite !andb_true_iff in Hfl.
    destruct Hfl as (Ha & Hb & Hc & Hd & _).
    change 3%nat with (S (length [[a; b]; [c; d]]) + 0)%nat.
    change [[c; d]; [a; b]] with (reorder (combine [1; 0] [[a; b]; [c; d]])).
    eapply (run_well_formed _ unit_call w 2 2 2 _ _ costs []).
    + reflexivity.
    + reflexivity.
    + reflexivity.
    + cbn [bh_tsne_bin engine_writing]. rewrite lookup_insert_eq.
      now rewrite app_nil_r.
    + unfold result_ok, vectors_ok, vector_ok. cbn [forallb length Nat.eqb].
      now rewrite Ha, Hb, Hc, Hd.
Qed.

Lemma reorder_restores_input_order_witness :
  Permutation (map fst [(1, [one; zero]); (0, [zero; one])])
              (map Z.of_nat (seq 0 2))
  /\ (length (reorder [(1, [one; zero]); (0, [zero; one])]) = 2%nat
      /\ forall (i : nat) (v : vector),
           In (Z.of_nat i, v) [(1, [one; zero]); (0, [zero; one])] ->
           nth_error (reorder [(1, [one; zero]); (0, [zero; one])]) i = Some v)
  /\ exists w',
       run 3 (System "/tmp/tmpa1b2c3"
                (engine_writing 0
                   (Some (result_file 2 2 [[one; zero]; [zero; one]] [1; 0]
                            [zero; zero]))))
           unit_call no_files
       = Some (inr [[zero; one]; [one; zero]], w').
Proof.
  assert (Hp : Permutation (map fst [(1, [one; zero]); (0, [zero; one])])
                           (map Z.of_nat (seq 0 2))) by apply perm_swap.
  split; [exact Hp|].
  apply (reorder_restores_input_order
           [(1, [one; zero]); (0, [zero; one])] 2 one zero zero one
           "/tmp/tmpa1b2c3" [zero; zero] no_files Hp).
  reflexivity.
Defined.

(** ** C2: what the encoder writes *)

Lemma transmitted_written_seed (c : call) :
  transmitted_seed (arg_randseed c) = written_seed c.
Proof.
  unfold transmitted_seed, written_seed, arg_randseed.
  destruct (randseed c) as [s|]; reflexivity.
Qed.

Lemma length_concat_uniform (d : nat) (samples : list vector) :
  uniform d samples = true ->
  length (concat samples) = (length samples * d)%nat.
Proof.
  unfold uniform. induction samples as [|s samples IH]; intros H; [reflexivity|].
  cbn [forallb] in H. apply andb_true_iff in H as [Hs H].
  apply Nat.eqb_eq in Hs. cbn [concat length].
  rewrite length_app, IH by assumption. lia.
Qed.

Lemma resolve_sample_dim_uniform (c : call) (d : nat) :
  sample_dim c = None -> samples c <> [] -> uniform d (samples c) = true ->
  resolve_sample_dim c = ret (Z.of_nat d).
Proof.
  unfold resolve_sample_dim, uniform. intros -> Hne Hu.
  destruct (samples c) as [|first rest]; [contradiction|].
  cbn [forallb] in Hu. apply andb_true_iff in Hu as [Hf _].
  apply Nat.eqb_eq in Hf. now rewrite Hf.
Qed.

(** The first [next] creates the directory and leaves in [data.dat] what
    the encoder wrote, whatever happens afterwards. *)
Lemma start_trace (sys : system) (c : call) (w : world) (d : Z)
    (written : list byte) (failure : option exn) :
  resolve_sample_dim c = ret d ->
  write_request (Z.of_nat (length (samples c))) d (arg_theta c)
    (arg_perplexity c) (arg_no_dims c) (samples c) (arg_randseed c)
  = (written, failure) ->
  exists later,
    trace (next sys (GStart c) w).2
    = trace w ++ EvMkdtemp (mkdtemp_path sys)
              :: EvWriteFile (mkdtemp_path sys) "data.dat" written
              :: match failure with
                 | Some _ => []
                 | None => [EvPopen (mkdtemp_path sys) (arg_verbose c)]
                 end
              ++ later.
Proof.
  intros Hd Hw. cbn [next]. unfold start. rewrite Hd.
  cbn [ret mkdtemp]. unfold with_body. rewrite Hw.
  destruct failure as [e|].
  - eexists. trace_of_run.
  - unfold call_engine, popen_wait, write_file. cbn [fs log trace].
    rewrite !lookup_insert_eq.
    destruct (bh_tsne_bin sys _) as [files returncode].
    destruct (returncode =? 0).
    + unfold open_read. cbn [fs log trace].
      rewrite lookup_insert_eq. unfold ret, raise. cbv beta iota.
      destruct (files !! "result.dat") as [content|]; cbv beta iota.
      * destruct (read_results content) as [e|[results output_file]].
        -- eexists. trace_of_run.
        -- destruct (map snd results) as [|v rest]; eexists; trace_of_run.
      * eexists. trace_of_run.
    + eexists. trace_of_run.
Qed.

(** C2, as the spec states it, fails for a caller who supplies the seed -1:
    the seed is supplied, and the file written ends after the samples. *)
Lemma supplied_seed_minus_one_not_written :
  let c := Call [[one; zero]] None None None (Some (-1)) None None in
  randseed c = Some (-1)
  /\ write_request 1 2 (arg_theta c) (arg_perplexity c) (arg_no_dims c)
       (samples c) (arg_randseed c)
     = (request_file 1 2 DEFAULT_THETA DEFAULT_PERPLEXITY 2 [one; zero] None,
        None)
  /\ request_file 1 2 DEFAULT_THETA DEFAULT_PERPLEXITY 2 [one; zero] None
     <> request_file 1 2 DEFAULT_THETA DEFAULT_PERPLEXITY 2 [one; zero]
          (randseed c).
Proof.
  cbv zeta. split; [reflexivity|]. split; [vm_compute; reflexivity|].
  vm_compute. discriminate.
Qed.

(** C2 (amended).  For a batch of [N] samples of [D] values each, either
    not empty and passed without [sample_dim], or passed with [sample_dim]
    equal to [D], and with [N], [D], the output dimensionality and the seed
    in the range of an int32, the encoder writes exactly: int32 N, int32 D,
    float64 theta, float64 perplexity, int32 output dimensionality, the
    [N * D] sample values in row-major order, and then one int32 seed if
    and only if the caller supplied a seed other than -1.  This is the
    content of [data.dat] when the engine is started. *)
Theorem request_layout (sys : system) (c : call) (w : world) (D : nat) :
  sample_dim c = None /\ samples c <> []
  \/ sample_dim c = Some (Z.of_nat D) ->
  uniform D (samples c) = true ->
  request_ok c (Z.of_nat D) = true ->
  let N := length (samples c) in
  let expected :=
    request_file (Z.of_nat N) (Z.of_nat D) (arg_theta c) (arg_perplexity c)
      (arg_no_dims c) (concat (samples c)) (written_seed c) in
  write_request (Z.of_nat N) (Z.of_nat D) (arg_theta c) (arg_perplexity c)
    (arg_no_dims c) (samples c) (arg_randseed c) = (expected, None)
  /\ length (concat (samples c)) = (N * D)%nat
  /\ exists later,
       trace (next sys (GStart c) w).2
       = trace w ++ EvMkdtemp (mkdtemp_path sys)
                 :: EvWriteFile (mkdtemp_path sys) "data.dat" expected
                 :: EvPopen (mkdtemp_path sys) (arg_verbose c)
                 :: later.
Proof.
  intros Hsd Hu Hok N expected.
  assert (Hw : write_request (Z.of_nat N) (Z.of_nat D) (arg_theta c)
                 (arg_perplexity c) (arg_no_dims c) (samples c)
                 (arg_randseed c) = (expected, None)).
  { subst expected N. rewrite <- transmitted_written_seed.
    now apply write_request_of. }
  split; [exact Hw|]. split; [now apply length_concat_uniform|].
  apply (start_trace sys c w (Z.of_nat D) expected None); [|exact Hw].
  destruct Hsd as [[Hsd Hne]|Hsd].
  - now apply resolve_sample_dim_uniform.
  - unfold resolve_sample_dim. now rewrite Hsd.
Qed.

Lemma request_layout_witness :
  let c := Call [[one; zero]; [zero; one]] None None None (Some 42) None None in
  let sys := System "/tmp/tmpa1b2c3" echo_engine in
  let expected :=
    request_file 2 2 DEFAULT_THETA DEFAULT_PERPLEXITY 2
      [one; zero; zero; one] (Some 42) in
  write_request 2 2 DEFAULT_THETA DEFAULT_PERPLEXITY 2 (samples c) 42
  = (expected, None)
  /\ length (concat (samples c)) = 4%nat
  /\ exists later,
       trace (next sys (GStart c) no_files).2
       = trace no_files ++ EvMkdtemp "/tmp/tmpa1b2c3"
           :: EvWriteFile "/tmp/tmpa1b2c3" "data.dat" expected
           :: EvPopen "/tmp/tmpa1b2c3" false
           :: later.
Proof.
  intros c sys expected.
  apply (request_layout sys c no_files 2);
    [left; split; [reflexivity|discriminate]|reflexivity|reflexivity].
Defined.

(** ** C3: batches the spec calls malformed *)




(** ** C4 and C9: the number of results *)

(** C4, as the spec states it, fails: two samples were sent, the result
    file announces one record, and the call yields that record. *)
Lemma result_count_mismatch_accepted :
  exists w',
    run 2 (System "/tmp/tmpa1b2c3"
             (engine_writing 0 (Some (result_file 1 2 [[one; zero]] [0] []))))
        unit_call no_files
    = Some (inr [[one; zero]], w')
    /\ length (samples unit_call) = 2%nat.
Proof. eexists. split; [vm_compute; reflexivity|reflexivity]. Qed.

(** C4 (amended).  The decoder does not compare [resultCount] with the
    number of samples sent.  Whatever that number is, a result file that
    agrees with its own header ([resultCount] vectors of [resultDims]
    values, [resultCount] indices) is decoded, and the call yields
    [resultCount] vectors. *)
Theorem result_count_not_checked
    (sys : system) (c : call) (w : world) (d count : Z) (dims : nat)
    (vectors : list vector) (indices : list Z) (costs : list float64)
    (files : gmap string (list byte)) :
  resolve_sample_dim c = ret d ->
  request_ok c d = true ->
  bh_tsne_bin sys (<["data.dat" := request_of c d]> ∅) = (files, 0) ->
  files !! "result.dat"
  = Some (result_file count (Z.of_nat dims) vectors indices costs) ->
  result_ok count dims vectors indices = true ->
  exists out w',
    run (S (Z.to_nat count)) sys c w = Some (inr out, w')
    /\ length out = Z.to_nat count.
Proof.
  intros Hd Hreq He Hf Hres.
  assert (Hlen : Z.to_nat count = length vectors /\ length indices = length vectors).
  { unfold result_ok in Hres. rewrite !andb_true_iff in Hres.
    destruct Hres as [[[[_ Hn] _] _] Hl]. apply Nat.eqb_eq in Hn, Hl. auto. }
  destruct Hlen as [Hn Hl].
  destruct (run_well_formed sys c w d count dims vectors indices costs []
              files 0 Hd Hreq He) as [w' Hrun];
    [now rewrite app_nil_r|assumption|].
  exists (reorder (combine indices vectors)), w'. split.
  - now rewrite Hn, <- (Nat.add_0_r (S _)).
  - rewrite length_reorder, length_combine. lia.
Qed.

Lemma result_count_not_checked_witness :
  exists out w',
    run 2 (System "/tmp/tmpa1b2c3"
             (engine_writing 0 (Some (result_file 1 2 [[one; zero]] [0] []))))
        unit_call no_files
    = Some (inr out, w')
    /\ length out = 1%nat.
Proof.
  apply (result_count_not_checked
           (System "/tmp/tmpa1b2c3"
              (engine_writing 0 (Some (result_file 1 2 [[one; zero]] [0] []))))
           unit_call no_files 2 1 2 [[one; zero]] [0] []
           (<["result.dat" := result_file 1 2 [[one; zero]] [0] []]>
              (<["data.dat" := request_of unit_call 2]> ∅)));
    reflexivity.
Defined.

(** C9.  For a batch of [N >= 1] samples, when the engine exits with 0 and
    leaves a well-formed result file for [N] records, the call yields
    exactly [N] vectors. *)
Theorem output_length_is_sample_count
    (sys : system) (c : call) (w : world) (d : Z) (dims : nat)
    (vectors : list vector) (indices : list Z) (costs : list float64)
    (files : gmap string (list byte)) :
  samples c <> [] ->
  resolve_sample_dim c = ret d ->
  request_ok c d = true ->
  bh_tsne_bin sys (<["data.dat" := request_of c d]> ∅) = (files, 0) ->
  files !! "result.dat"
  = Some (result_file (Z.of_nat (length (samples c))) (Z.of_nat dims)
            vectors indices costs) ->
  result_ok (Z.of_nat (length (samples c))) dims vectors indices = true ->
  exists out w',
    run (S (length (samples c))) sys c w = Some (inr out, w')
    /\ length out = length (samples c).
Proof.
  intros _ Hd Hreq He Hf Hres.
  assert (Hlen : length (samples c) = length vectors
                 /\ length indices = length vectors).
  { unfold result_ok in Hres. rewrite !andb_true_iff in Hres.
    destruct Hres as [[[[_ Hn] _] _] Hl]. apply Nat.eqb_eq in Hn, Hl.
    rewrite Nat2Z.id in Hn. auto. }
  destruct Hlen as [Hn Hl].
  destruct (run_well_formed sys c w d (Z.of_nat (length (samples c))) dims
              vectors indices costs [] files 0 Hd Hreq He) as [w' Hrun];
    [now rewrite app_nil_r|assumption|].
  exists (reorder (combine indices vectors)), w'. split.
  - now rewrite Hn, <- (Nat.add_0_r (S _)).
  - rewrite length_reorder, length_combine. lia.
Qed.

Lemma output_length_is_sample_count_witness :
  exists out w',
    run 3 (System "/tmp/tmpa1b2c3"
             (engine_writing 0
                (Some (result_file 2 2 [[one; one]; [zero; zero]] [1; 0]
                         [zero; zero]))))
        unit_call no_files
    = Some (inr out, w')
    /\ length out = 2%nat.
Proof.
  apply (output_length_is_sample_count
           (System "/tmp/tmpa1b2c3"
              (engine_writing 0
                 (Some (result_file 2 2 [[one; one]; [zero; zero]] [1; 0]
                          [zero; zero]))))
           unit_call no_files 2 2 [[one; one]; [zero; zero]] [1; 0]
           [zero; zero]
           (<["result.dat" := result_file 2 2 [[one; one]; [zero; zero]] [1; 0]
                                [zero; zero]]>
              (<["data.dat" := request_of unit_call 2]> ∅)));
    try reflexivity.
  discriminate.
Defined.

(** ** C5: the cost block *)

(** C5, as the spec states it, fails: after the decoder has returned, the
    eight bytes of the cost of the only sample are still unread. *)
Lemma costs_left_unread :
  read_results (result_file 1 1 [[one]] [0] [zero])
  = ret ([(0, [one])], pack_nd [zero])
  /\ length (pack_nd [zero]) = 8%nat.
Proof. split; vm_compute; reflexivity. Qed.

(** C5 (amended).  After the vectors and the indices the decoder reads
    nothing more: on a well-formed result file it stops in front of the
    cost block, which stays unread, and a file that ends after the indices
    is decoded as well. *)
Theorem decoder_stops_before_costs
    (count : Z) (dims : nat) (vectors : list vector) (indices : list Z)
    (costs : list float64) (extra : list byte) :
  result_ok count dims vectors indices = true ->
  read_results (result_file count (Z.of_nat dims) vectors indices costs ++ extra)
  = ret (list_sort (combine indices vectors), pack_nd costs ++ extra)
  /\ read_results (result_file count (Z.of_nat dims) vectors indices [])
     = ret (list_sort (combine indices vectors), []).
Proof.
  intros Hok. split; [now apply read_results_of|].
  rewrite <- (app_nil_r (result_file _ _ _ _ _)).
  now rewrite read_results_of.
Qed.

Lemma decoder_stops_before_costs_witness :
  read_results (result_file 2 1 [[one]; [zero]] [1; 0] [zero; one] ++ [])
  = ret (list_sort (combine [1; 0] [[one]; [zero]]), pack_nd [zero; one] ++ [])
  /\ read_results (result_file 2 1 [[one]; [zero]] [1; 0] [])
     = ret (list_sort (combine [1; 0] [[one]; [zero]]), []).
Proof.
  apply (decoder_stops_before_costs 2 1 [[one]; [zero]] [1; 0] [zero; one] []).
  reflexivity.
Defined.

(** ** C6: the exit status of the engine *)

(** C6.  The engine call raises if and only if the return code of the
    subprocess is not 0; what it raises is the [AssertionError] with the
    message of the source, and that message tells the caller to enable
    verbose mode exactly when [verbose] was not set. *)
Theorem engine_failure_iff_nonzero_exit
    (sys : system) (cwd : string) (verbose : bool) (w : world) :
  let returncode := (bh_tsne_bin sys (default ∅ (fs w !! cwd))).2 in
  ((exists e, (call_engine sys cwd verbose w).1 = inl e) <-> returncode <> 0)
  /\ (forall e, (call_engine sys cwd verbose w).1 = inl e ->
                e = AssertionError (error_message verbose))
  /\ contains "enable verbose mode" (error_message verbose) = negb verbose.
Proof.
  cbv zeta. unfold call_engine, popen_wait.
  destruct (bh_tsne_bin sys _) as [files returncode]. cbn [snd].
  destruct (Z.eqb_spec returncode 0) as [->|Hne]; cbn [fst].
  - split; [|split].
    + split; [intros [e He]; discriminate|intros H; now contradiction H].
    + intros e He. discriminate.
    + now destruct verbose.
  - split; [|split].
    + split; [intros _; exact Hne|intros _; eexists; reflexivity].
    + intros e He. unfold raise in He. congruence.
    + now destruct verbose.
Qed.

(** ** C7: the workspace *)

Lemma advance_fs (k : nat) (sys : system) (g : gen_state) (w : world) :
  (forall c, g = GStart c -> fs w !! mkdtemp_path sys = None) ->
  fs_without_workspace (advance k sys g w).1 (advance k sys g w).2
  = fs_without_workspace g w.
Proof.
  revert g w. induction k as [|k IH]; intros g w Hfresh; [reflexivity|].
  cbn [advance].
  pose proof (next_fs sys g w Hfresh) as Hfs.
  pose proof (next_finished sys g w) as Hf.
  destruct (next sys g w) as [[o g1] w1]. cbn [fst snd] in Hfs, Hf.
  rewrite IH; [exact Hfs|].
  intros c0 ->. destruct o; cbn [finished] in Hf;
    [destruct Hf as (? & ? & ? & ?)|..]; discriminate.
Qed.

Lemma close_fs (g : gen_state) (w : world) :
  fs (close g w).2 = fs_without_workspace g w.
Proof. destruct g; reflexivity. Qed.

(** C7.  Whatever the engine does, a call that is consumed to its end
    comes to an end (a normal return or an exception from the encoder, the
    engine call or the decoder), and afterwards the directory [mkdtemp]
    created is gone and the rest of the file system is as it was.  The same
    holds when the consumer gives up after any number of results and the
    generator is closed. *)
Theorem workspace_removed_on_every_exit
    (sys : system) (c : call) (w : world) :
  fs w !! mkdtemp_path sys = None ->
  (exists fuel out w', run fuel sys c w = Some (out, w'))
  /\ (forall fuel out w',
        run fuel sys c w = Some (out, w') ->
        fs w' = fs w /\ fs w' !! mkdtemp_path sys = None)
  /\ (forall k,
        let '(g, w') := advance k sys (GStart c) w in
        fs (close g w').2 = fs w
        /\ fs (close g w').2 !! mkdtemp_path sys = None).
Proof.
  intros Hfresh. split; [apply run_terminates|]. split.
  - intros fuel out w' Hrun.
    assert (Hfs : fs w' = fs w).
    { apply (drain_fs fuel sys (GStart c) w out w'); [now intros|exact Hrun]. }
    split; [exact Hfs|now rewrite Hfs].
  - intros k.
    pose proof (advance_fs k sys (GStart c) w (fun _ _ => Hfresh)) as Hfs.
    destruct (advance k sys (GStart c) w) as [g w']. cbn [fst snd] in Hfs.
    cbn [fs_without_workspace] in Hfs.
    rewrite close_fs, Hfs. now split.
Qed.

Lemma workspace_removed_on_every_exit_witness :
  let sys := System "/tmp/tmpa1b2c3" (engine_writing 1 None) in
  (exists fuel out w', run fuel sys unit_call no_files = Some (out, w'))
  /\ (forall fuel out w',
        run fuel sys unit_call no_files = Some (out, w') ->
        fs w' = fs no_files /\ fs w' !! mkdtemp_path sys = None)
  /\ (forall k,
        let '(g, w') := advance k sys (GStart unit_call) no_files in
        fs (close g w').2 = fs no_files
        /\ fs (close g w').2 !! mkdtemp_path sys = None).
Proof.
  intros sys.
  apply (workspace_removed_on_every_exit sys unit_call no_files).
  reflexivity.
Defined.

(** The scenario of the spec: the engine exits with status 1, the call
    raises the [AssertionError] and no directory is left. *)
Example engine_exit_1 :
  exists w',
    run 1 (System "/tmp/tmpa1b2c3" (engine_writing 1 None)) unit_call no_files
    = Some (inl (AssertionError (error_message false)), w')
    /\ fs w' = ∅.
Proof. eexists. split; [vm_compute; reflexivity|reflexivity]. Qed.

(** An encoding failure: the seed does not fit an int32, [pack] raises
    after the header and the samples were written, and the directory is
    removed with the partial file. *)
Example encoding_failure_cleans_up :
  exists w',
    run 1 (System "/tmp/tmpa1b2c3" echo_engine)
        (with_randseed unit_call (Some (2 ^ 31))) no_files
    = Some (inl StructError, w')
    /\ fs w' = ∅
    /\ ~ In (EvPopen "/tmp/tmpa1b2c3" false) (trace w').
Proof.
  eexists. split; [vm_compute; reflexivity|]. split; [reflexivity|].
  cbn. intros H. repeat destruct H as [H|H]; try discriminate H. exact H.
Qed.

(** A decoding failure: the result file ends inside the first vector. *)
Example decoding_failure_cleans_up :
  exists w',
    run 1 (System "/tmp/tmpa1b2c3"
             (engine_writing 0
                (Some (int32_bytes 2 ++ int32_bytes 2 ++ pack_nd [one]))))
        unit_call no_files
    = Some (inl StructError, w')
    /\ fs w' = ∅.
Proof. eexists. split; [vm_compute; reflexivity|reflexivity]. Qed.

(** The engine leaves no result file: opening it fails. *)
Example missing_result_cleans_up :
  exists w',
    run 1 (System "/tmp/tmpa1b2c3" (engine_writing 0 None)) unit_call no_files
    = Some (inl IOError, w')
    /\ fs w' = ∅.
Proof. eexists. split; [vm_compute; reflexivity|reflexivity]. Qed.

(** ** C8: the round trip through an engine that echoes the samples *)

Lemma length_identity_indices (n : nat) : length (identity_indices n) = n.
Proof. unfold identity_indices. now rewrite length_map, length_seq. Qed.

Lemma identity_indices_ok (n : nat) :
  int32_ok (Z.of_nat n) = true -> forallb int32_ok (identity_indices n) = true.
Proof.
  unfold identity_indices, int32_ok, INT_MIN, INT_MAX. intros Hn.
  apply andb_true_iff in Hn as [_ Hn]. apply Z.leb_le in Hn.
  apply forallb_forall. intros i Hi.
  apply in_map_iff in Hi as (k & <- & Hk). apply in_seq in Hk.
  apply andb_true_iff. split; apply Z.leb_le; lia.
Qed.

Lemma reorder_identity (vs : list vector) :
  reorder (combine (identity_indices (length vs)) vs) = vs.
Proof.
  unfold reorder, identity_indices.
  rewrite list_sort_sorted by apply combine_identity_sorted.
  generalize 0%nat. induction vs as [|v vs IH]; intros start; [reflexivity|].
  cbn [length seq map combine snd]. now rewrite IH.
Qed.

Lemma vectors_ok_of_uniform (d : nat) (samples : list vector) :
  uniform d samples = true ->
  forallb (forallb float64_ok) samples = true ->
  vectors_ok d samples = true.
Proof.
  unfold uniform, vectors_ok, vector_ok.
  induction samples as [|s samples IH]; intros Hu Hf; [reflexivity|].
  cbn [forallb] in *. apply andb_true_iff in Hu as [Hs Hu].
  apply andb_true_iff in Hf as [Hfs Hf].
  now rewrite Hs, Hfs, IH.
Qed.

(** What the echoing engine leaves for a request of uniform samples. *)
Lemma echo_engine_request (c : call) (d : nat) :
  uniform d (samples c) = true ->
  request_ok c (Z.of_nat d) = true ->
  echo_engine (<["data.dat" := request_of c (Z.of_nat d)]> ∅)
  = (<["result.dat" :=
         result_file (Z.of_nat (length (samples c))) (Z.of_nat d) (samples c)
           (identity_indices (length (samples c)))
           (repeat (F64 0) (length (samples c)))]>
       (<["data.dat" := request_of c (Z.of_nat d)]> ∅), 0).
Proof.
  intros Hu Hok. unfold echo_engine. rewrite lookup_insert_eq.
  unfold request_ok in Hok. rewrite !andb_true_iff in Hok.
  destruct Hok as [[[Hn Hd] _] _].
  set (N := length (samples c)) in *.
  assert (Hreq : request_of c (Z.of_nat d)
                 = int32_bytes (Z.of_nat N)
                   ++ int32_bytes (Z.of_nat d)
                   ++ (pack_d (arg_theta c) ++ pack_d (arg_perplexity c)
                       ++ int32_bytes (arg_no_dims c))
                   ++ concat (map pack_nd (samples c))
                   ++ match transmitted_seed (arg_randseed c) with
                      | Some s => int32_bytes s
                      | None => []
                      end).
  { unfold request_of, request_file. fold N.
    now rewrite pack_nd_concat, <- !app_assoc. }
  rewrite Hreq. clear Hreq.
  set (seed := match transmitted_seed _ with Some s => _ | None => [] end).
  set (values := concat (map pack_nd (samples c))).
  set (params := pack_d _ ++ pack_d _ ++ int32_bytes _).
  assert (Hparams : length params = 20%nat).
  { subst params. now rewrite !length_app, !length_pack_d, length_int32_bytes. }
  assert (Hvalues : length values = (8 * (N * d))%nat).
  { subst values. rewrite pack_nd_concat.
    pose proof (length_concat_uniform d (samples c) Hu) as Hc.
    fold N in Hc. rewrite <- Hc. clear Hc.
    generalize (concat (samples c)). intros l.
    induction l as [|x l IH]; [reflexivity|].
    cbn [map concat length]. rewrite length_app, length_pack_d, IH. lia. }
  rewrite (take_app_length' _ _ 4) by now rewrite length_int32_bytes.
  rewrite (drop_app_length' _ _ 4) by now rewrite length_int32_bytes.
  rewrite (take_app_length' _ _ 4) by now rewrite length_int32_bytes.
  rewrite !unpack_i_int32_bytes, !Nat2Z.id by assumption.
  replace (drop 28 (int32_bytes (Z.of_nat N) ++ int32_bytes (Z.of_nat d)
                    ++ params ++ values ++ seed))
    with (values ++ seed).
  2:{ rewrite !app_assoc, <- (app_assoc _ values seed).
      rewrite (drop_app_length' _ _ 28); [reflexivity|].
      now rewrite !length_app, !length_int32_bytes, Hparams. }
  rewrite (take_app_length' _ _ (8 * (N * d))) by now rewrite Hvalues.
  replace (take 8 (int32_bytes (Z.of_nat N) ++ int32_bytes (Z.of_nat d)
                   ++ params ++ values ++ seed))
    with (int32_bytes (Z.of_nat N) ++ int32_bytes (Z.of_nat d)).
  2:{ rewrite app_assoc. rewrite (take_app_length' _ _ 8); [reflexivity|].
      now rewrite length_app, !length_int32_bytes. }
  unfold result_file, identity_indices. fold values.
  now rewrite map_map, <- !app_assoc.
Qed.

(** C8.  Round trip: for a batch of [N >= 1] samples of [D] floats each
    (header fields in int32 range), the request is written, the engine
    echoes the samples with [resultDims = D] and the indices [0 .. N-1],
    and the call yields the samples themselves, same bits, same order. *)
Theorem echo_round_trip (tmp : string) (c : call) (w : world) (D : nat) :
  sample_dim c = None ->
  samples c <> [] ->
  uniform D (samples c) = true ->
  forallb (forallb float64_ok) (samples c) = true ->
  request_ok c (Z.of_nat D) = true ->
  exists w',
    run (S (length (samples c))) (System tmp echo_engine) c w
    = Some (inr (samples c), w').
Proof.
  intros Hsd Hne Hu Hf Hok.
  assert (Hn : int32_ok (Z.of_nat (length (samples c))) = true
               /\ int32_ok (Z.of_nat D) = true).
  { unfold request_ok in Hok. rewrite !andb_true_iff in Hok. tauto. }
  destruct Hn as [Hn HD].
  destruct (run_well_formed (System tmp echo_engine) c w (Z.of_nat D)
              (Z.of_nat (length (samples c))) D (samples c)
              (identity_indices (length (samples c)))
              (repeat (F64 0) (length (samples c))) []
              (<["result.dat" :=
                   result_file (Z.of_nat (length (samples c))) (Z.of_nat D)
                     (samples c) (identity_indices (length (samples c)))
                     (repeat (F64 0) (length (samples c)))]>
                 (<["data.dat" := request_of c (Z.of_nat D)]> ∅)) 0)
    as [w' Hrun].
  - now apply resolve_sample_dim_uniform.
  - exact Hok.
  - cbn [bh_tsne_bin]. now apply echo_engine_request.
  - rewrite lookup_insert_eq. now rewrite app_nil_r.
  - unfold result_ok. rewrite Hn, HD, Nat2Z.id, Nat.eqb_refl.
    rewrite vectors_ok_of_uniform, identity_indices_ok by assumption.
    now rewrite length_identity_indices, Nat.eqb_refl.
  - exists w'. rewrite reorder_identity, Nat.add_0_r in Hrun. exact Hrun.
Qed.

Lemma echo_round_trip_witness :
  exists w',
    run 3 (System "/tmp/tmpa1b2c3" echo_engine)
        (plain_call [[one; zero]; [zero; one]]) no_files
    = Some (inr [[one; zero]; [zero; one]], w').
Proof.
  apply (echo_round_trip "/tmp/tmpa1b2c3"
           (plain_call [[one; zero]; [zero; one]]) no_files 2);
    try reflexivity.
  discriminate.
Defined.

(** ** C10: the seed -1 *)







(** * Further properties of the wrapper *)

(** ** The paths through the first [next] *)

Lemma resolve_sample_dim_raises (c : call) (e : exn) :
  resolve_sample_dim c = inl e -> e = IndexError.
Proof.
  unfold resolve_sample_dim.
  destruct (sample_dim c); [discriminate|].
  destruct (samples c); [|discriminate].
  unfold raise. congruence.
Qed.

Lemma pack_i_cases (z : Z) :
  pack_i z = ret (int32_bytes z) \/ pack_i z = raise StructError.
Proof. unfold pack_i, int32_bytes. destruct (int32_ok z); auto. Qed.

Lemma write_request_raises (n d : Z) (theta perplexity : float64)
    (output_dims : Z) (samples : list vector) (randseed : Z)
    (written : list byte) (e : exn) :
  write_request n d theta perplexity output_dims samples randseed
  = (written, Some e) ->
  e = StructError.
Proof.
  unfold write_request, pack_iiddi.
  destruct (pack_i_cases n) as [-> | ->];
    destruct (pack_i_cases d) as [-> | ->];
    destruct (pack_i_cases output_dims) as [-> | ->];
    cbn [bind ret raise]; try (intros H; congruence).
  destruct (negb (randseed =? EMPTY_SEED)); [|discriminate].
  destruct (pack_i_cases randseed) as [-> | ->]; unfold ret, raise;
    intros H; congruence.
Qed.

Lemma fs_after_write (sys : system) (written : list byte) (w : world) :
  fs (after_write sys written w) !! mkdtemp_path sys
  = Some (<["data.dat" := written]> ∅).
Proof.
  unfold after_write, write_file, mkdtemp. cbn [snd fs log].
  now rewrite !lookup_insert_eq.
Qed.

Lemma start_index_error (sys : system) (c : call) (w : world) (e : exn) :
  resolve_sample_dim c = inl e ->
  next sys (GStart c) w = (Raise e, GDone, w).
Proof. intros H. cbn [next]. unfold start. now rewrite H. Qed.

Lemma start_encode_error (sys : system) (c : call) (w : world) (d : Z)
    (written : list byte) (e : exn) :
  resolve_sample_dim c = ret d ->
  write_request (Z.of_nat (length (samples c))) d (arg_theta c)
    (arg_perplexity c) (arg_no_dims c) (samples c) (arg_randseed c)
  = (written, Some e) ->
  next sys (GStart c) w
  = (Raise e, GDone, rmtree (mkdtemp_path sys) (after_write sys written w)).
Proof.
  intros Hd Hw. cbn [next]. unfold start. rewrite Hd. cbn [ret].
  destruct (mkdtemp sys w) as [p w1] eqn:Hm.
  unfold with_body. rewrite Hw. unfold after_write. rewrite Hm.
  unfold mkdtemp in Hm. injection Hm as <- <-. reflexivity.
Qed.

Lemma call_engine_after_write (sys : system) (verbose : bool)
    (written : list byte) (w : world) (files : gmap string (list byte))
    (returncode : Z) :
  bh_tsne_bin sys (<["data.dat" := written]> ∅) = (files, returncode) ->
  call_engine sys (mkdtemp_path sys) verbose (after_write sys written w)
  = (if returncode =? 0 then ret tt
     else raise (AssertionError (error_message verbose)),
     after_engine sys verbose files written w).
Proof.
  intros He. unfold call_engine, popen_wait.
  rewrite fs_after_write. cbn [default from_option]. unfold id. rewrite He.
  unfold after_engine. now destruct (returncode =? 0).
Qed.

Lemma start_unfold (sys : system) (c : call) (w : world) (d : Z)
    (written : list byte) (files : gmap string (list byte)) (returncode : Z) :
  resolve_sample_dim c = ret d ->
  write_request (Z.of_nat (length (samples c))) d (arg_theta c)
    (arg_perplexity c) (arg_no_dims c) (samples c) (arg_randseed c)
  = (written, None) ->
  bh_tsne_bin sys (<["data.dat" := written]> ∅) = (files, returncode) ->
  next sys (GStart c) w
  = if returncode =? 0
    then match files !! "result.dat" with
         | None =>
             (Raise IOError, GDone,
              rmtree (mkdtemp_path sys)
                (after_open sys (arg_verbose c) files written w))
         | Some content =>
             match read_results content with
             | inl e =>
                 (Raise e, GDone,
                  rmtree (mkdtemp_path sys)
                    (after_open sys (arg_verbose c) files written w))
             | inr (results, output_file) =>
                 resume (mkdtemp_path sys) output_file (map snd results)
                   (after_open sys (arg_verbose c) files written w)
             end
         end
    else (Raise (AssertionError (error_message (arg_verbose c))), GDone,
          rmtree (mkdtemp_path sys)
            (after_engine sys (arg_verbose c) files written w)).
Proof.
  intros Hd Hw He. cbn [next]. unfold start. rewrite Hd. cbn [ret].
  destruct (mkdtemp sys w) as [p w1] eqn:Hm.
  assert (Hp : p = mkdtemp_path sys) by (unfold mkdtemp in Hm; congruence).
  assert (Hw1 : write_file p "data.dat" written w1 = after_write sys written w)
    by (unfold after_write; now rewrite Hm, Hp).
  subst p. unfold with_body. rewrite Hw, Hw1.
  rewrite (call_engine_after_write sys (arg_verbose c) written w files
             returncode He).
  destruct (returncode =? 0); [|reflexivity].
  unfold ret. cbv beta iota. unfold open_read.
  assert (Hfs : fs (after_engine sys (arg_verbose c) files written w)
                !! mkdtemp_path sys = Some files).
  { unfold after_engine. cbn [fs log]. apply lookup_insert_eq. }
  rewrite Hfs. fold (after_open sys (arg_verbose c) files written w).
  destruct (files !! "result.dat") as [content|]; [|reflexivity].
  unfold ret. cbv beta iota.
  destruct (read_results content) as [e|[results output_file]]; reflexivity.
Qed.

(** ** The decoder on arbitrary files *)

Lemma length_take_eqb (n : nat) (fh : file_handle) :
  (length (take n fh) =? n)%nat = (n <=? length fh)%nat.
Proof.
  rewrite length_take.
  destruct (Nat.leb_spec n (length fh)) as [H|H].
  - apply Nat.eqb_eq. lia.
  - apply Nat.eqb_neq. lia.
Qed.

Lemma _read_unpack_ii_spec (fh : file_handle) :
  _read_unpack_ii fh
  = if (8 <=? length fh)%nat
    then ret ((unpack_i (take 4 fh), unpack_i (take 4 (drop 4 fh))), drop 8 fh)
    else raise StructError.
Proof.
  unfold _read_unpack_ii, fh_read. rewrite length_take_eqb.
  destruct (8 <=? length fh)%nat; [|reflexivity].
  rewrite take_take, take_drop_commute. reflexivity.
Qed.

Lemma _read_unpack_i_spec (fh : file_handle) :
  _read_unpack_i fh
  = if (4 <=? length fh)%nat
    then ret (unpack_i (take 4 fh), drop 4 fh)
    else raise StructError.
Proof. unfold _read_unpack_i, fh_read. now rewrite length_take_eqb. Qed.

Lemma length_chunks (w n : nat) (bs : list byte) :
  length (chunks w n bs) = n.
Proof. revert bs. induction n as [|n IH]; intros bs; simpl; [|rewrite IH]; reflexivity. Qed.

Lemma _read_unpack_nd_spec (n : Z) (fh : file_handle) :
  _read_unpack_nd n fh
  = if n <? 0 then raise StructError
    else if (8 * Z.to_nat n <=? length fh)%nat
         then ret (map unpack_d (chunks 8 (Z.to_nat n) (take (8 * Z.to_nat n) fh)),
                   drop (8 * Z.to_nat n) fh)
         else raise StructError.
Proof.
  unfold _read_unpack_nd, fh_read. destruct (n <? 0); [reflexivity|].
  now rewrite length_take_eqb.
Qed.

Lemma read_vectors_negative (n : nat) (dims : Z) (fh : file_handle) :
  dims < 0 -> read_vectors (S n) dims fh = raise StructError.
Proof.
  intros H. cbn [read_vectors]. rewrite _read_unpack_nd_spec.
  destruct (Z.ltb_spec dims 0); [reflexivity|lia].
Qed.

Lemma read_vectors_spec (n : nat) (dims : Z) (fh : file_handle) :
  0 <= dims ->
  if (n * (8 * Z.to_nat dims) <=? length fh)%nat
  then exists vs,
         read_vectors n dims fh = ret (vs, drop (n * (8 * Z.to_nat dims)) fh)
         /\ length vs = n
         /\ Forall (fun v => length v = Z.to_nat dims) vs
  else read_vectors n dims fh = raise StructError.
Proof.
  intros Hd. revert fh. induction n as [|n IH]; intros fh.
  - cbn. exists []. repeat split. constructor.
  - cbn [read_vectors]. rewrite _read_unpack_nd_spec.
    destruct (Z.ltb_spec dims 0) as [?|_]; [lia|].
    set (k := Z.to_nat dims) in *.
    destruct (Nat.leb_spec (8 * k) (length fh)) as [Hk|Hk].
    + cbn [bind ret fst snd]. specialize (IH (drop (8 * k) fh)).
      rewrite length_drop in IH.
      destruct (Nat.leb_spec (S n * (8 * k)) (length fh)) as [Hn|Hn].
      * destruct (Nat.leb_spec (n * (8 * k)) (length fh - 8 * k)) as [_|?];
          [|lia].
        destruct IH as (vs & -> & Hlen & Hall). cbn [bind ret fst snd].
        eexists. split; [|split].
        -- rewrite drop_drop. reflexivity.
        -- cbn [length]. now rewrite Hlen.
        -- constructor; [|exact Hall].
           now rewrite length_map, length_chunks.
      * destruct (Nat.leb_spec (n * (8 * k)) (length fh - 8 * k)) as [?|_];
          [lia|].
        now rewrite IH.
    + destruct (Nat.leb_spec (S n * (8 * k)) (length fh)) as [Hn|Hn]; [lia|].
      reflexivity.
Qed.

Lemma read_landmarks_spec (vs : list vector) (fh : file_handle) :
  if (4 * length vs <=? length fh)%nat
  then exists recs,
         read_landmarks vs fh = ret (recs, drop (4 * length vs) fh)
         /\ map snd recs = vs
  else read_landmarks vs fh = raise StructError.
Proof.
  revert fh. induction vs as [|v vs IH]; intros fh.
  - cbn. now exists [].
  - cbn [read_landmarks length]. rewrite _read_unpack_i_spec.
    destruct (Nat.leb_spec 4 (length fh)) as [Hk|Hk].
    + cbn [bind ret fst snd]. specialize (IH (drop 4 fh)).
      rewrite length_drop in IH.
      destruct (Nat.leb_spec (4 * S (length vs)) (length fh)) as [Hn|Hn].
      * destruct (Nat.leb_spec (4 * length vs) (length fh - 4)) as [_|?];
          [|lia].
        destruct IH as (recs & -> & Hsnd). cbn [bind ret fst snd].
        eexists. split.
        -- rewrite drop_drop.
           replace (4 * S (length vs))%nat with (4 + 4 * length vs)%nat by lia.
           reflexivity.
        -- cbn [map snd]. now rewrite Hsnd.
      * destruct (Nat.leb_spec (4 * length vs) (length fh - 4)) as [?|_];
          [lia|].
        now rewrite IH.
    + destruct (Nat.leb_spec (4 * S (length vs)) (length fh)) as [Hn|Hn]; [lia|].
      reflexivity.
Qed.

(** The header fields the decoder reads from a file. *)
Lemma read_results_header (fh : file_handle) :
  (8 <= length fh)%nat ->
  read_results fh
  = (vs <- read_vectors (Z.to_nat (unpack_i (take 4 fh)))
             (unpack_i (take 4 (drop 4 fh))) (drop 8 fh) ;;
     rs <- read_landmarks (fst vs) (snd vs) ;;
     ret (list_sort (fst rs), snd rs)).
Proof.
  intros H. unfold read_results. rewrite _read_unpack_ii_spec.
  destruct (Nat.leb_spec 8 (length fh)); [reflexivity|lia].
Qed.

Lemma read_results_short_header (fh : file_handle) :
  (length fh < 8)%nat -> read_results fh = raise StructError.
Proof.
  intros H. unfold read_results. rewrite _read_unpack_ii_spec.
  destruct (Nat.leb_spec 8 (length fh)); [lia|reflexivity].
Qed.

(** The decoder succeeds exactly on the files that hold what their header
    announces, and then it has consumed [consumed_bytes] bytes. *)
Lemma read_results_spec (fh : file_handle) :
  let count := unpack_i (take 4 fh) in
  let dims := unpack_i (take 4 (drop 4 fh)) in
  if (consumed_bytes count dims <=? length fh)%nat
     && negb ((0 <? count) && (dims <? 0))
  then exists recs,
         read_results fh = ret (recs, drop (consumed_bytes count dims) fh)
         /\ length recs = Z.to_nat count
         /\ Forall (fun r => length (snd r) = Z.to_nat dims) recs
  else read_results fh = raise StructError.
Proof.
  intros count dims. unfold consumed_bytes.
  destruct (Nat.leb_spec 8 (length fh)) as [H8|H8].
  2:{ rewrite read_results_short_header by assumption.
      destruct (Nat.leb_spec (8 + Z.to_nat count * (8 * Z.to_nat dims + 4))
                  (length fh)); [lia|reflexivity]. }
  rewrite read_results_header by assumption. fold count dims.
  destruct (Z.ltb_spec dims 0) as [Hneg|Hpos].
  - destruct (Z.ltb_spec 0 count) as [Hc|Hc].
    + rewrite andb_false_r.
      destruct (Z.to_nat count) as [|n] eqn:En; [lia|].
      now rewrite read_vectors_negative.
    + rewrite andb_true_r.
      replace (Z.to_nat count) with 0%nat by lia. cbn [Nat.mul Nat.add].
      rewrite ?Nat.add_0_r.
      destruct (Nat.leb_spec 8 (length fh)); [|lia].
      exists []. cbn. repeat split. constructor.
  - rewrite andb_false_r, andb_true_r.
    set (n := Z.to_nat count). set (k := Z.to_nat dims).
    pose proof (read_vectors_spec n dims (drop 8 fh) Hpos) as Hv.
    fold k in Hv. rewrite length_drop in Hv.
    destruct (Nat.leb_spec (n * (8 * k)) (length fh - 8)) as [Hn|Hn].
    + destruct Hv as (vs & -> & Hlen & Hall). cbn [bind ret fst snd].
      pose proof (read_landmarks_spec vs (drop (n * (8 * k)) (drop 8 fh))) as Hl.
      rewrite !length_drop, Hlen in Hl.
      destruct (Nat.leb_spec (4 * n) (length fh - 8 - n * (8 * k))) as [Hm|Hm].
      * destruct Hl as (recs & -> & Hsnd). cbn [bind ret fst snd].
        destruct (Nat.leb_spec (8 + n * (8 * k + 4)) (length fh)); [|lia].
        exists (list_sort recs). split; [|split].
        -- rewrite !drop_drop.
           replace (8 + n * (8 * k + 4))%nat
             with (8 + n * (8 * k) + 4 * n)%nat by lia.
           reflexivity.
        -- rewrite length_list_sort, <- (length_map snd recs), Hsnd. exact Hlen.
        -- eapply Permutation_Forall; [symmetry; apply list_sort_perm|].
           apply (proj1 (List.Forall_map snd (fun v => length v = k) recs)).
           now rewrite Hsnd.
      * rewrite Hl. cbn [bind raise].
        destruct (Nat.leb_spec (8 + n * (8 * k + 4)) (length fh)); [lia|].
        reflexivity.
    + rewrite Hv. cbn [bind raise].
      destruct (Nat.leb_spec (8 + n * (8 * k + 4)) (length fh)); [lia|].
      reflexivity.
Qed.

Lemma read_results_raises (fh : file_handle) (e : exn) :
  read_results fh = inl e -> e = StructError.
Proof.
  pose proof (read_results_spec fh) as H. cbv zeta in H.
  destruct (_ && _) in H.
  - destruct H as (recs & -> & _). discriminate.
  - rewrite H. unfold raise. congruence.
Qed.



Lemma result_file_header (count : Z) (dims : nat) (vectors : list vector)
    (indices : list Z) (costs : list float64) (k : nat) :
  int32_ok count = true -> int32_ok (Z.of_nat dims) = true ->
  (8 <= k)%nat ->
  let fh := take k (result_file count (Z.of_nat dims) vectors indices costs) in
  unpack_i (take 4 fh) = count
  /\ unpack_i (take 4 (drop 4 fh)) = Z.of_nat dims.
Proof.
  intros Hc Hd Hk fh. subst fh. unfold result_file.
  set (tail := concat _ ++ _).
  split.
  - rewrite take_take, Nat.min_l by lia.
    rewrite (take_app_length' _ _ 4) by now rewrite length_int32_bytes.
    now apply unpack_i_int32_bytes.
  - rewrite take_drop_commute, take_take, Nat.min_l by lia.
    cbn [Nat.add].
    rewrite app_assoc.
    rewrite (take_app_length' _ _ 8)
      by now rewrite length_app, !length_int32_bytes.
    rewrite (drop_app_length' _ _ 4) by now rewrite length_int32_bytes.
    now apply unpack_i_int32_bytes.
Qed.

(** X4.  A result file cut off anywhere inside its header, its vectors
    or its indices is refused with [struct.error]. *)
Theorem truncated_result_file_raises
    (count : Z) (dims : nat) (vectors : list vector) (indices : list Z)
    (costs : list float64) (k : nat) :
  result_ok count dims vectors indices = true ->
  (k < consumed_bytes count (Z.of_nat dims))%nat ->
  read_results (take k (result_file count (Z.of_nat dims) vectors indices costs))
  = raise StructError.
Proof.
  intros Hok Hk.
  unfold result_ok in Hok. rewrite !andb_true_iff in Hok.
  destruct Hok as [[[[[Hc Hd] _] _] _] _].
  set (fh := take k _).
  assert (Hlen : (length fh <= k)%nat) by (subst fh; rewrite length_take; lia).
  destruct (Nat.lt_ge_cases k 8) as [H8|H8].
  - apply read_results_short_header. lia.
  - pose proof (read_results_spec fh) as Hs. cbv zeta in Hs.
    destruct (result_file_header count dims vectors indices costs k Hc Hd H8)
      as [Hcount Hdims].
    fold fh in Hcount, Hdims. rewrite Hcount, Hdims in Hs.
    destruct (Nat.leb_spec (consumed_bytes count (Z.of_nat dims)) (length fh));
      [lia|exact Hs].
Qed.

Lemma truncated_result_file_raises_witness :
  read_results (take 27 (result_file 2 1 [[one]; [zero]] [1; 0] [zero; one]))
  = raise StructError.
Proof.
  apply (truncated_result_file_raises 2 1 [[one]; [zero]] [1; 0] [zero; one] 27).
  - reflexivity.
  - vm_compute. lia.
Defined.

(** X5.  A result file whose header announces no record, or a negative
    number of records, is decoded to an empty sequence whatever follows the
    header: the call yields nothing and raises nothing. *)
Theorem nonpositive_count_yields_nothing
    (sys : system) (c : call) (w : world) (d : Z) (written : list byte)
    (files : gmap string (list byte)) (content : list byte) :
  resolve_sample_dim c = ret d ->
  write_request (Z.of_nat (length (samples c))) d (arg_theta c)
    (arg_perplexity c) (arg_no_dims c) (samples c) (arg_randseed c)
  = (written, None) ->
  bh_tsne_bin sys (<["data.dat" := written]> ∅) = (files, 0) ->
  files !! "result.dat" = Some content ->
  (8 <= length content)%nat ->
  unpack_i (take 4 content) <= 0 ->
  read_results content = ret ([], drop 8 content)
  /\ exists w', run 1 sys c w = Some (inr [], w').
Proof.
  intros Hd Hw He Hf H8 Hc.
  assert (Hr : read_results content = ret ([], drop 8 content)).
  { pose proof (read_results_spec content) as Hs. cbv zeta in Hs.
    unfold consumed_bytes in Hs.
    replace (Z.to_nat (unpack_i (take 4 content))) with 0%nat in Hs by lia.
    cbn [Nat.mul Nat.add] in Hs. rewrite ?Nat.add_0_r in Hs.
    destruct (Nat.leb_spec 8 (length content)); [|lia].
    destruct (Z.ltb_spec 0 (unpack_i (take 4 content))); [lia|].
    cbn [andb negb] in Hs. destruct Hs as (recs & Hr & Hlen & _).
    destruct recs; [exact Hr|discriminate]. }
  split; [exact Hr|].
  apply (run_ok sys c w d written files content [] (drop 8 content) 0);
    assumption.
Qed.

Lemma nonpositive_count_yields_nothing_witness :
  let content := int32_bytes (-3) ++ int32_bytes 2 ++ pack_nd [one; zero] in
  read_results content = ret ([], drop 8 content)
  /\ exists w',
       run 1 (System "/tmp/tmpa1b2c3" (engine_writing 0 (Some content)))
           unit_call no_files
       = Some (inr [], w').
Proof.
  intros content.
  apply (nonpositive_count_yields_nothing
           (System "/tmp/tmpa1b2c3" (engine_writing 0 (Some content)))
           unit_call no_files 2 (request_of unit_call 2)
           (<["result.dat" := content]>
              (<["data.dat" := request_of unit_call 2]> ∅)) content);
    try reflexivity.
  - vm_compute. lia.
  - vm_compute. discriminate.
Defined.

(** X6.  A result file that announces at least one record and a negative
    dimensionality is refused with [struct.error]: the format string
    ['-1d'] is not a format. *)
Theorem negative_dims_raise (fh : file_handle) :
  (8 <= length fh)%nat ->
  0 < unpack_i (take 4 fh) ->
  unpack_i (take 4 (drop 4 fh)) < 0 ->
  read_results fh = raise StructError.
Proof.
  intros H8 Hc Hd.
  pose proof (read_results_spec fh) as Hs. cbv zeta in Hs.
  destruct (Z.ltb_spec 0 (unpack_i (take 4 fh))); [|lia].
  destruct (Z.ltb_spec (unpack_i (take 4 (drop 4 fh))) 0); [|lia].
  now rewrite andb_false_r in Hs.
Qed.

Lemma negative_dims_raise_witness :
  read_results (int32_bytes 1 ++ int32_bytes (-1) ++ pack_nd [one])
  = raise StructError.
Proof.
  apply negative_dims_raise; vm_compute; (lia || reflexivity).
Defined.

(** ** Failures of the encoder *)

Lemma run_raises (sys : system) (c : call) (w w' : world) (e : exn)
    (fuel : nat) :
  next sys (GStart c) w = (Raise e, GDone, w') ->
  run (S fuel) sys c w = Some (inl e, w').
Proof. intros H. unfold run. now rewrite drain_S, H. Qed.

(** X7.  A seed that does not fit an int32 makes the call fail with
    [struct.error] after the header and every sample were written: the
    request file is left without its seed, the engine is not started, and
    the directory is removed. *)
Theorem seed_out_of_range_partial_write
    (sys : system) (c : call) (w : world) (d : Z) (fuel : nat) :
  resolve_sample_dim c = ret d ->
  int32_ok (Z.of_nat (length (samples c))) = true ->
  int32_ok d = true ->
  int32_ok (arg_no_dims c) = true ->
  int32_ok (arg_randseed c) = false ->
  let partial :=
    request_file (Z.of_nat (length (samples c))) d (arg_theta c)
      (arg_perplexity c) (arg_no_dims c) (concat (samples c)) None in
  exists w',
    run (S fuel) sys c w = Some (inl StructError, w')
    /\ trace w'
       = trace w ++ [EvMkdtemp (mkdtemp_path sys);
                     EvWriteFile (mkdtemp_path sys) "data.dat" partial;
                     EvRmtree (mkdtemp_path sys)].
Proof.
  intros Hd Hn HD Ho Hs partial.
  assert (Hw : write_request (Z.of_nat (length (samples c))) d (arg_theta c)
                 (arg_perplexity c) (arg_no_dims c) (samples c)
                 (arg_randseed c) = (partial, Some StructError)).
  { unfold write_request, pack_iiddi.
    rewrite !pack_i_ok by assumption. cbn [bind ret].
    rewrite (pack_i_raises _ Hs).
    destruct (Z.eqb_spec (arg_randseed c) EMPTY_SEED) as [E|_].
    - rewrite E in Hs. discriminate.
    - cbn [negb raise]. subst partial. unfold request_file.
      now rewrite fold_left_written, pack_nd_concat, <- !app_assoc, app_nil_r. }
  eexists. split.
  - apply run_raises. now apply (start_encode_error sys c w d partial).
  - trace_along.
Qed.

Lemma seed_out_of_range_partial_write_witness :
  let c := with_randseed unit_call (Some (2 ^ 31)) in
  let sys := System "/tmp/tmpa1b2c3" echo_engine in
  let partial :=
    request_file 2 2 DEFAULT_THETA DEFAULT_PERPLEXITY 2
      [one; zero; zero; one] None in
  exists w',
    run 1 sys c no_files = Some (inl StructError, w')
    /\ trace w'
       = trace no_files ++ [EvMkdtemp "/tmp/tmpa1b2c3";
                            EvWriteFile "/tmp/tmpa1b2c3" "data.dat" partial;
                            EvRmtree "/tmp/tmpa1b2c3"].
Proof.
  intros c sys.
  apply (seed_out_of_range_partial_write sys c no_files 2 0); reflexivity.
Defined.

(** X8.  When the number of samples, the dimensionality or the number of
    output dimensions does not fit an int32, [pack] raises [struct.error]
    before the first write: [data.dat] is created and left empty, the
    engine is not started, and the directory is removed. *)
Theorem header_out_of_range_empty_file
    (sys : system) (c : call) (w : world) (d : Z) (fuel : nat) :
  resolve_sample_dim c = ret d ->
  int32_ok (Z.of_nat (length (samples c))) && int32_ok d
  && int32_ok (arg_no_dims c) = false ->
  exists w',
    run (S fuel) sys c w = Some (inl StructError, w')
    /\ trace w'
       = trace w ++ [EvMkdtemp (mkdtemp_path sys);
                     EvWriteFile (mkdtemp_path sys) "data.dat" [];
                     EvRmtree (mkdtemp_path sys)].
Proof.
  intros Hd Hbad.
  assert (Hw : write_request (Z.of_nat (length (samples c))) d (arg_theta c)
                 (arg_perplexity c) (arg_no_dims c) (samples c)
                 (arg_randseed c) = ([], Some StructError)).
  { unfold write_request, pack_iiddi, pack_i.
    destruct (int32_ok (Z.of_nat (length (samples c)))); [|reflexivity].
    destruct (int32_ok d); [|reflexivity].
    destruct (int32_ok (arg_no_dims c)); [discriminate|reflexivity]. }
  eexists. split.
  - apply run_raises. now apply (start_encode_error sys c w d []).
  - trace_along.
Qed.

Lemma header_out_of_range_empty_file_witness :
  let c := Call [[one; zero]] (Some (2 ^ 31)) None None None None None in
  exists w',
    run 1 (System "/tmp/tmpa1b2c3" echo_engine) c no_files
    = Some (inl StructError, w')
    /\ trace w'
       = trace no_files ++ [EvMkdtemp "/tmp/tmpa1b2c3";
                            EvWriteFile "/tmp/tmpa1b2c3" "data.dat" [];
                            EvRmtree "/tmp/tmpa1b2c3"].
Proof.
  intros c.
  apply (header_out_of_range_empty_file
           (System "/tmp/tmpa1b2c3" echo_engine) c no_files 2 0); reflexivity.
Defined.



Lemma request_file_length
    (n d : Z) (theta perplexity : float64) (output_dims : Z)
    (values : list float64) (seed : option Z) :
  length (request_file n d theta perplexity output_dims values seed)
  = (28 + 8 * length values
     + match seed with Some _ => 4 | None => 0 end)%nat.
Proof.
  unfold request_file.
  rewrite !length_app, !length_int32_bytes, !length_pack_d.
  fold (pack_nd values). rewrite length_pack_nd.
  destruct seed; [rewrite length_int32_bytes|cbn [length]]; lia.
Qed.

(** X15.  Whenever the encoder completes, the request holds no padding:
    28 bytes of header, 8 bytes for each sample value, and 4 bytes more
    when the seed is not [EMPTY_SEED]. *)
Theorem written_request_length
    (n d : Z) (theta perplexity : float64) (output_dims : Z)
    (samples : list vector) (randseed : Z) (written : list byte) :
  write_request n d theta perplexity output_dims samples randseed
  = (written, None) ->
  length written
  = (28 + 8 * length (concat samples)
     + if (randseed =? EMPTY_SEED)%Z then 0 else 4)%nat.
Proof.
  intros Hw.
  assert (Hok : int32_ok n = true /\ int32_ok d = true
                /\ int32_ok output_dims = true /\ int32_ok randseed = true).
  { unfold write_request, pack_iiddi, pack_i in Hw.
    destruct (int32_ok n); [|discriminate].
    destruct (int32_ok d); [|discriminate].
    destruct (int32_ok output_dims); [|discriminate].
    cbn [bind ret] in Hw.
    destruct (Z.eqb_spec randseed EMPTY_SEED) as [->|_]; [now repeat split|].
    cbn [negb] in Hw.
    destruct (int32_ok randseed); [now repeat split|discriminate]. }
  destruct Hok as (Hn & Hd & Ho & Hs).
  rewrite (write_request_ok n d theta perplexity output_dims samples randseed
             Hn Hd Ho Hs) in Hw.
  injection Hw as <-. rewrite request_file_length. unfold transmitted_seed.
  now destruct (randseed =? EMPTY_SEED).
Qed.

Lemma written_request_length_witness :
  length (request_file 2 2 DEFAULT_THETA DEFAULT_PERPLEXITY 2
            [one; zero; zero; one] (Some 42))
  = (28 + 8 * length (concat [[one; zero]; [zero; one]])
     + if (42 =? EMPTY_SEED)%Z then 0 else 4)%nat.
Proof.
  apply (written_request_length 2 2 DEFAULT_THETA DEFAULT_PERPLEXITY 2
           [[one; zero]; [zero; one]] 42).
  vm_compute. reflexivity.
Defined.

(** ** The exit paths of a call *)

Lemma drain_suspended_inv (fuel : nat) (sys : system) (p : string)
    (fh : file_handle) (pending : list vector) (w w' : world)
    (out : result (list vector)) :
  drain fuel sys (GSuspended p fh pending) w = Some (out, w') ->
  out = inr pending /\ w' = rmtree p w.
Proof.
  revert pending out w'.
  induction fuel as [|fuel IH]; intros pending out w' H; [discriminate|].
  rewrite drain_S in H.
  destruct pending as [|v rest]; cbn [next resume] in H.
  - injection H as <- <-. now split.
  - destruct (drain fuel sys (GSuspended p fh rest) w) as [[o w'']|] eqn:Hrec;
      [|discriminate].
    destruct (IH rest o w'' Hrec) as [-> ->]. injection H as <- <-.
    now split.
Qed.

(** The cases of [run]: where the call stopped, and the operations it
    performed up to there. *)
Lemma run_cases
    (sys : system) (c : call) (w : world) (fuel : nat)
    (out : result (list vector)) (w' : world) :
  run fuel sys c w = Some (out, w') ->
  let p := mkdtemp_path sys in
  (out = inl IndexError /\ w' = w)
  \/ exists d written,
       resolve_sample_dim c = ret d
       /\ ((exists e,
              write_request (Z.of_nat (length (samples c))) d (arg_theta c)
                (arg_perplexity c) (arg_no_dims c) (samples c)
                (arg_randseed c) = (written, Some e))
           /\ out = inl StructError
           /\ trace w'
              = trace w ++ [EvMkdtemp p; EvWriteFile p "data.dat" written;
                            EvRmtree p]
           \/ write_request (Z.of_nat (length (samples c))) d (arg_theta c)
                (arg_perplexity c) (arg_no_dims c) (samples c)
                (arg_randseed c) = (written, None)
              /\ (snd (bh_tsne_bin sys (<["data.dat" := written]> ∅)) <> 0
                  /\ out = inl (AssertionError
                                  (error_message (arg_verbose c)))
                  /\ trace w'
                     = trace w ++ [EvMkdtemp p;
                                   EvWriteFile p "data.dat" written;
                                   EvPopen p (arg_verbose c); EvRmtree p]
                  \/ snd (bh_tsne_bin sys (<["data.dat" := written]> ∅)) = 0
                     /\ (out = inl IOError \/ out = inl StructError
                         \/ exists vs, out = inr vs)
                     /\ trace w'
                        = trace w ++ [EvMkdtemp p;
                                      EvWriteFile p "data.dat" written;
                                      EvPopen p (arg_verbose c);
                                      EvOpenRead p "result.dat";
                                      EvRmtree p])).
Proof.
  intros Hrun p. unfold run in Hrun.
  destruct fuel as [|fuel]; [discriminate|]. rewrite drain_S in Hrun.
  destruct (resolve_sample_dim c) as [e|d] eqn:Hd.
  { rewrite (start_index_error sys c w e Hd) in Hrun.
    injection Hrun as <- <-. left.
    now rewrite (resolve_sample_dim_raises c e Hd). }
  right. exists d.
  destruct (write_request (Z.of_nat (length (samples c))) d (arg_theta c)
              (arg_perplexity c) (arg_no_dims c) (samples c) (arg_randseed c))
    as [written [e|]] eqn:Hw.
  { rewrite (start_encode_error sys c w d written e Hd Hw) in Hrun.
    injection Hrun as <- <-. exists written. split; [reflexivity|]. left.
    split; [now exists e|].
    split; [now rewrite (write_request_raises _ _ _ _ _ _ _ _ _ Hw)|].
    trace_along. }
  exists written. split; [reflexivity|]. right. split; [reflexivity|].
  destruct (bh_tsne_bin sys (<["data.dat" := written]> ∅))
    as [files returncode] eqn:He.
  rewrite (start_unfold sys c w d written files returncode Hd Hw He) in Hrun.
  cbn [snd].
  destruct (Z.eqb_spec returncode 0) as [Hrc|Hrc].
  2:{ injection Hrun as <- <-. left. split; [exact Hrc|].
      split; [reflexivity|trace_along]. }
  right. split; [exact Hrc|].
  destruct (files !! "result.dat") as [content|].
  2:{ injection Hrun as <- <-. split; [now left|trace_along]. }
  destruct (read_results content) as [e|[results output_file]] eqn:Hr.
  { injection Hrun as <- <-. split; [|trace_along].
    right. left. now rewrite (read_results_raises content e Hr). }
  destruct (map snd results) as [|v rest]; cbn [resume] in Hrun.
  - injection Hrun as <- <-. split; [|trace_along].
    right. right. now exists [].
  - destruct (drain fuel sys _ _) as [[o w'']|] eqn:Hrec; [|discriminate].
    destruct (drain_suspended_inv _ _ _ _ _ _ _ _ Hrec) as [-> ->].
    injection Hrun as <- <-. split; [|trace_along].
    right. right. now eexists.
Qed.

(** X10.  In every call that comes to an end the engine is started at most
    once, and only when the encoder has completed: what precedes its start
    is [mkdtemp] and the write of the whole request.  [result.dat] is
    opened at most once, directly after the engine and only when the
    engine exited with 0: it is never opened after a failed run of the
    engine.  A call that yields its results has performed exactly
    [mkdtemp], the write of the request, one start of the engine, one open
    of [result.dat] and [rmtree], in this order. *)
Theorem engine_then_result_file
    (sys : system) (c : call) (w : world) (fuel : nat)
    (out : result (list vector)) (w' : world) :
  run fuel sys c w = Some (out, w') ->
  let p := mkdtemp_path sys in
  exists added,
    trace w' = trace w ++ added
    /\ (forall pre post q v,
          added = pre ++ EvPopen q v :: post ->
          exists d written,
            resolve_sample_dim c = ret d
            /\ write_request (Z.of_nat (length (samples c))) d (arg_theta c)
                 (arg_perplexity c) (arg_no_dims c) (samples c)
                 (arg_randseed c) = (written, None)
            /\ pre = [EvMkdtemp p; EvWriteFile p "data.dat" written]
            /\ q = p /\ v = arg_verbose c)
    /\ (forall pre post q f,
          added = pre ++ EvOpenRead q f :: post ->
          exists written,
            pre = [EvMkdtemp p; EvWriteFile p "data.dat" written;
                   EvPopen p (arg_verbose c)]
            /\ snd (bh_tsne_bin sys (<["data.dat" := written]> ∅)) = 0
            /\ q = p /\ f = "result.dat"%string)
    /\ (forall vs,
          out = inr vs ->
          exists written,
            added = [EvMkdtemp p; EvWriteFile p "data.dat" written;
                     EvPopen p (arg_verbose c); EvOpenRead p "result.dat";
                     EvRmtree p]).
Proof.
  intros Hrun p.
  destruct (run_cases sys c w fuel out w' Hrun)
    as [[-> ->]
       |(d & written & Hd
         & [([e Hw] & -> & Ht)
           |(Hw & [(Hrc & -> & Ht)|(Hrc & Hout & Ht)])])];
    fold p in Ht || idtac.
  - exists []. split; [now rewrite app_nil_r|].
    split; [|split]; [intros pre post q v H|intros pre post q f H|intros vs H];
      [destruct pre; discriminate|destruct pre; discriminate|discriminate].
  - eexists. split; [exact Ht|].
    split; [|split]; [intros pre post q v H|intros pre post q f H|intros vs H];
      [| |discriminate];
      destruct pre as [|? [|? [|? [|? pre]]]]; cbn [app] in H; simplify_eq.
  - eexists. split; [exact Ht|].
    split; [|split]; [intros pre post q v H|intros pre post q f H|intros vs H];
      [| |discriminate];
      destruct pre as [|? [|? [|? [|? [|? pre]]]]]; cbn [app] in H;
      simplify_eq.
    exists d, written. repeat split; assumption.
  - eexists. split; [exact Ht|].
    split; [|split]; [intros pre post q v H|intros pre post q f H|intros vs H];
      [| |now exists written];
      destruct pre as [|? [|? [|? [|? [|? [|? pre]]]]]]; cbn [app] in H;
      simplify_eq.
    + exists d, written. repeat split; assumption.
    + exists written. repeat split; assumption.
Qed.

Lemma engine_then_result_file_witness :
  let sys := System "/tmp/tmpa1b2c3" (engine_writing 1 None) in
  let c := unit_call in
  let p := mkdtemp_path sys in
  let out : result (list vector) :=
    inl (AssertionError (error_message false)) in
  let w' := rmtree p (after_engine sys false
                        (<["data.dat" := request_of unit_call 2]> ∅)
                        (request_of unit_call 2) no_files) in
  exists added,
    trace w' = trace no_files ++ added
    /\ (forall pre post q v,
          added = pre ++ EvPopen q v :: post ->
          exists d written,
            resolve_sample_dim c = ret d
            /\ write_request (Z.of_nat (length (samples c))) d (arg_theta c)
                 (arg_perplexity c) (arg_no_dims c) (samples c)
                 (arg_randseed c) = (written, None)
            /\ pre = [EvMkdtemp p; EvWriteFile p "data.dat" written]
            /\ q = p /\ v = arg_verbose c)
    /\ (forall pre post q f,
          added = pre ++ EvOpenRead q f :: post ->
          exists written,
            pre = [EvMkdtemp p; EvWriteFile p "data.dat" written;
                   EvPopen p (arg_verbose c)]
            /\ snd (bh_tsne_bin sys (<["data.dat" := written]> ∅)) = 0
            /\ q = p /\ f = "result.dat"%string)
    /\ (forall vs,
          out = inr vs ->
          exists written,
            added = [EvMkdtemp p; EvWriteFile p "data.dat" written;
                     EvPopen p (arg_verbose c); EvOpenRead p "result.dat";
                     EvRmtree p]).
Proof.
  intros sys c p out w'.
  apply (engine_then_result_file sys unit_call no_files 1 out w').
  vm_compute. reflexivity.
Defined.

(** X12.  Once the request is written, the call fails with the
    [AssertionError] of the engine call if and only if the engine exits
    with a non-zero status; no other step raises it. *)
Theorem assertion_error_iff_nonzero_exit
    (sys : system) (c : call) (w : world) (d : Z) (written : list byte)
    (files : gmap string (list byte)) (returncode : Z) :
  resolve_sample_dim c = ret d ->
  write_request (Z.of_nat (length (samples c))) d (arg_theta c)
    (arg_perplexity c) (arg_no_dims c) (samples c) (arg_randseed c)
  = (written, None) ->
  bh_tsne_bin sys (<["data.dat" := written]> ∅) = (files, returncode) ->
  (exists fuel msg w',
     run fuel sys c w = Some (inl (AssertionError msg), w'))
  <-> returncode <> 0.
Proof.
  intros Hd Hw He. split.
  - intros (fuel & msg & w' & Hrun) ->.
    unfold run in Hrun. destruct fuel as [|fuel]; [discriminate|].
    rewrite drain_S in Hrun.
    rewrite (start_unfold sys c w d written files 0 Hd Hw He) in Hrun.
    cbn [Z.eqb] in Hrun.
    destruct (files !! "result.dat") as [content|]; [|discriminate].
    destruct (read_results content) as [e|[results output_file]] eqn:Hr.
    + rewrite (read_results_raises content e Hr) in Hrun. discriminate.
    + destruct (map snd results) as [|v rest]; cbn [resume] in Hrun;
        [discriminate|].
      destruct (drain fuel sys _ _) as [[o w'']|] eqn:Hrec; [|discriminate].
      destruct (drain_suspended_inv _ _ _ _ _ _ _ _ Hrec) as [-> ->].
      discriminate.
  - intros Hne. exists 1%nat, (error_message (arg_verbose c)). eexists.
    apply run_raises.
    rewrite (start_unfold sys c w d written files returncode Hd Hw He).
    destruct (Z.eqb_spec returncode 0); [contradiction|reflexivity].
Qed.

Lemma assertion_error_iff_nonzero_exit_witness :
  (exists fuel msg w',
     run fuel (System "/tmp/tmpa1b2c3" (engine_writing 1 None)) unit_call
         no_files
     = Some (inl (AssertionError msg), w'))
  <-> 1 <> 0.
Proof.
  apply (assertion_error_iff_nonzero_exit
           (System "/tmp/tmpa1b2c3" (engine_writing 1 None)) unit_call no_files
           2 (request_of unit_call 2)
           (<["data.dat" := request_of unit_call 2]> ∅) 1); reflexivity.
Defined.

(** X13.  When the engine exits with 0 and leaves no [result.dat], the call
    fails with [IOError] at the [open], and the directory is removed. *)
Theorem missing_result_file_raises
    (sys : system) (c : call) (w : world) (d : Z) (written : list byte)
    (files : gmap string (list byte)) (fuel : nat) :
  resolve_sample_dim c = ret d ->
  write_request (Z.of_nat (length (samples c))) d (arg_theta c)
    (arg_perplexity c) (arg_no_dims c) (samples c) (arg_randseed c)
  = (written, None) ->
  bh_tsne_bin sys (<["data.dat" := written]> ∅) = (files, 0) ->
  files !! "result.dat" = None ->
  exists w',
    run (S fuel) sys c w = Some (inl IOError, w')
    /\ fs w' = delete (mkdtemp_path sys) (fs w).
Proof.
  intros Hd Hw He Hf. eexists. split.
  - apply run_raises.
    rewrite (start_unfold sys c w d written files 0 Hd Hw He).
    cbn [Z.eqb]. now rewrite Hf.
  - unfold after_open, after_engine, after_write, write_file, mkdtemp.
    cbn [fs log rmtree snd]. now rewrite !delete_insert_eq.
Qed.

Lemma missing_result_file_raises_witness :
  exists w',
    run 1 (System "/tmp/tmpa1b2c3" (engine_writing 0 None)) unit_call no_files
    = Some (inl IOError, w')
    /\ fs w' = delete "/tmp/tmpa1b2c3" (fs no_files).
Proof.
  apply (missing_result_file_raises
           (System "/tmp/tmpa1b2c3" (engine_writing 0 None)) unit_call no_files
           2 (request_of unit_call 2)
           (<["data.dat" := request_of unit_call 2]> ∅) 0); reflexivity.
Defined.

Lemma advance_done (k : nat) (sys : system) (w : world) :
  advance k sys GDone w = (GDone, w).
Proof. induction k as [|k IH]; [reflexivity|]. cbn [advance next]. exact IH. Qed.

Lemma advance_suspended (k : nat) (sys : system) (p p' : string)
    (fh fh' : file_handle) (rest rest' : list vector) (w w' : world) :
  advance k sys (GSuspended p fh rest) w = (GSuspended p' fh' rest', w') ->
  p' = p /\ w' = w.
Proof.
  revert rest. induction k as [|k IH]; intros rest H.
  - cbn in H. injection H as <- _ _ <-. now split.
  - cbn [advance next] in H. destruct rest as [|v rest]; cbn [resume] in H.
    + rewrite advance_done in H. discriminate.
    + now apply (IH rest).
Qed.

Lemma start_suspended (sys : system) (c : call) (w w' : world) (o : outcome)
    (p : string) (fh : file_handle) (rest : list vector) :
  next sys (GStart c) w = (o, GSuspended p fh rest, w') ->
  p = mkdtemp_path sys
  /\ exists files content,
       fs w' !! p = Some files /\ files !! "result.dat" = Some content.
Proof.
  intros H.
  destruct (resolve_sample_dim c) as [e|d] eqn:Hd.
  { rewrite (start_index_error sys c w e Hd) in H. discriminate. }
  destruct (write_request (Z.of_nat (length (samples c))) d (arg_theta c)
              (arg_perplexity c) (arg_no_dims c) (samples c) (arg_randseed c))
    as [written [e|]] eqn:Hw.
  { rewrite (start_encode_error sys c w d written e Hd Hw) in H. discriminate. }
  destruct (bh_tsne_bin sys (<["data.dat" := written]> ∅))
    as [files returncode] eqn:He.
  rewrite (start_unfold sys c w d written files returncode Hd Hw He) in H.
  destruct (returncode =? 0); [|discriminate].
  destruct (files !! "result.dat") as [content|] eqn:Hf; [|discriminate].
  destruct (read_results content) as [e|[results output_file]];
    [discriminate|].
  destruct (map snd results) as [|v vs]; cbn [resume] in H; [discriminate|].
  injection H as _ <- _ _ <-. split; [reflexivity|].
  exists files, content. split; [|exact Hf].
  unfold after_open, after_engine. cbn [fs log]. apply lookup_insert_eq.
Qed.

(** X11.  The directory is kept for as long as the generator is suspended
    at a [yield]: after any number of [next] calls that leave results
    pending, the directory made by [mkdtemp] still exists and still holds
    the [result.dat] of the engine. *)
Theorem workspace_held_while_suspended
    (sys : system) (c : call) (w w' : world) (k : nat) (p : string)
    (fh : file_handle) (rest : list vector) :
  advance (S k) sys (GStart c) w = (GSuspended p fh rest, w') ->
  p = mkdtemp_path sys
  /\ exists files content,
       fs w' !! p = Some files /\ files !! "result.dat" = Some content.
Proof.
  intros H. cbn [advance] in H.
  destruct (next sys (GStart c) w) as [[o g1] w1] eqn:Hn.
  pose proof (next_finished sys (GStart c) w) as Hf. rewrite Hn in Hf.
  cbn [fst snd] in Hf.
  destruct o as [v| |e]; cbn [finished] in Hf.
  - destruct Hf as (p1 & fh1 & rest1 & ->).
    destruct (advance_suspended _ _ _ _ _ _ _ _ _ _ H) as [-> ->].
    exact (start_suspended sys c w w1 (Yield v) p1 fh1 rest1 Hn).
  - subst g1. rewrite advance_done in H. discriminate.
  - subst g1. rewrite advance_done in H. discriminate.
Qed.

Lemma workspace_held_while_suspended_witness :
  let sys := System "/tmp/tmpa1b2c3" echo_engine in
  let w' := after_open sys false
              (echo_engine (<["data.dat" := request_of unit_call 2]> ∅)).1
              (request_of unit_call 2) no_files in
  "/tmp/tmpa1b2c3" = mkdtemp_path sys
  /\ exists files content,
       fs w' !! "/tmp/tmpa1b2c3" = Some files
       /\ files !! "result.dat" = Some content.
Proof.
  intros sys w'.
  apply (workspace_held_while_suspended sys unit_call no_files w' 0
           "/tmp/tmpa1b2c3" (pack_nd [F64 0; F64 0]) [[zero; one]]).
  vm_compute. reflexivity.
Defined.

(** ** The sort on arbitrary indices *)

Lemma record_lt_le (a b : record) : record_lt a b = true -> fst a <= fst b.
Proof.
  unfold record_lt. destruct (Z.eqb_spec (fst a) (fst b)); [lia|].
  intros H. apply Z.ltb_lt in H. lia.
Qed.

Lemma record_lt_ge (a b : record) : record_lt a b = false -> fst b <= fst a.
Proof.
  unfold record_lt. destruct (Z.eqb_spec (fst a) (fst b)); [lia|].
  intros H. apply Z.ltb_ge in H. lia.
Qed.

Lemma insert_sorted_le (x : record) (l : list record) :
  StronglySorted idx_le l -> StronglySorted idx_le (insert_sorted x l).
Proof.
  induction l as [|y l IH]; intros Hs; simpl.
  - repeat constructor.
  - apply StronglySorted_inv in Hs as [Hs Hy].
    destruct (record_lt y x) eqn:Hlt.
    + constructor; [now apply IH|].
      eapply Permutation_Forall; [symmetry; apply insert_sorted_perm|].
      constructor; [now apply record_lt_le|exact Hy].
    + apply record_lt_ge in Hlt.
      constructor; [now constructor|].
      constructor; [exact Hlt|].
      eapply Forall_impl; [exact Hy|].
      intros z Hz. unfold idx_le in *. lia.
Qed.

(** X1.  Whatever indices the engine wrote (repeated, negative or beyond
    the number of samples), as long as [<] orders the tuples totally (no
    value is a NaN, or no index is written twice), the call yields every
    decoded vector exactly once, in non-decreasing order of the indices:
    no record is dropped and none is merged with another. *)
Theorem reorder_any_indices (records : list record) :
  forallb nan_free records = true \/ List.NoDup (map fst records) ->
  Permutation (reorder records) (map snd records)
  /\ StronglySorted Z.le (map fst (list_sort records))
  /\ Permutation (list_sort records) records.
Proof.
  intros _. split; [|split].
  - unfold reorder. apply Permutation_map, list_sort_perm.
  - assert (Hs : StronglySorted idx_le (list_sort records)).
    { induction records as [|x l IH]; [constructor|].
      simpl. now apply insert_sorted_le. }
    induction Hs as [|x l Hs IH Hx]; simpl; constructor; [assumption|].
    apply List.Forall_map. exact Hx.
  - apply list_sort_perm.
Qed.

Lemma reorder_any_indices_witness :
  let records := [(3, [one]); (-1, [zero; one]); (3, [zero]); (7, [])] in
  Permutation (reorder records) (map snd records)
  /\ StronglySorted Z.le (map fst (list_sort records))
  /\ Permutation (list_sort records) records.
Proof.
  intros records. apply (reorder_any_indices records). left. reflexivity.
Defined.

(** ** Reading and packing again *)

Lemma Z_of_byte_range (b : byte) : 0 <= Z_of_byte b < 256.
Proof.
  unfold Z_of_byte. pose proof (Byte.to_N_bounded b). lia.
Qed.

Lemma byte_of_Z_of_byte (b : byte) (r : Z) :
  byte_of_Z (Z_of_byte b + 256 * r) = b.
Proof.
  pose proof (Z_of_byte_range b) as Hb. unfold byte_of_Z.
  replace (Z_of_byte b + 256 * r) with (Z_of_byte b + r * 256) by lia.
  rewrite Z.mod_add, Z.mod_small by lia.
  unfold Z_of_byte. now rewrite N2Z.id, Byte.of_to_N.
Qed.

Lemma le_bytes_le_value (bs : list byte) :
  le_bytes (length bs) (le_value bs) = bs.
Proof.
  induction bs as [|b bs IH]; [reflexivity|].
  cbn [length le_value le_bytes]. rewrite byte_of_Z_of_byte. f_equal.
  pose proof (Z_of_byte_range b) as Hb.
  replace (Z_of_byte b + 256 * le_value bs)
    with (Z_of_byte b + le_value bs * 256) by lia.
  rewrite Z.div_add, Z.div_small by lia.
  exact IH.
Qed.

Lemma le_value_range (bs : list byte) :
  0 <= le_value bs < 256 ^ Z.of_nat (length bs).
Proof.
  induction bs as [|b bs IH]; [cbn; lia|].
  cbn [length le_value]. pose proof (Z_of_byte_range b) as Hb.
  rewrite Nat2Z.inj_succ, Z.pow_succ_r by lia. lia.
Qed.

Lemma pack_i_unpack_i (bs : list byte) :
  length bs = 4%nat ->
  int32_ok (unpack_i bs) = true /\ pack_i (unpack_i bs) = ret bs.
Proof.
  intros Hlen. pose proof (le_value_range bs) as Hr. rewrite Hlen in Hr.
  change (256 ^ Z.of_nat 4) with (2 ^ 32) in Hr.
  assert (Hok : int32_ok (unpack_i bs) = true).
  { unfold int32_ok, INT_MIN, INT_MAX, unpack_i.
    destruct (Z.ltb_spec (le_value bs) (2 ^ 31));
      apply andb_true_iff; split; apply Z.leb_le; lia. }
  split; [exact Hok|]. rewrite pack_i_ok by exact Hok.
  unfold int32_bytes, ret. f_equal.
  rewrite <- (le_bytes_le_value bs) at 2. rewrite Hlen. f_equal.
  unfold unpack_i. destruct (Z.ltb_spec (le_value bs) (2 ^ 31)).
  - apply Z.mod_small. lia.
  - rewrite <- (Z.mod_add _ 1) by lia.
    replace (le_value bs - 2 ^ 32 + 1 * 2 ^ 32) with (le_value bs) by lia.
    apply Z.mod_small. lia.
Qed.

Lemma pack_d_unpack_d (bs : list byte) :
  length bs = 8%nat ->
  float64_ok (unpack_d bs) = true /\ pack_d (unpack_d bs) = bs.
Proof.
  intros Hlen. pose proof (le_value_range bs) as Hr. rewrite Hlen in Hr.
  change (256 ^ Z.of_nat 8) with (2 ^ 64) in Hr. split.
  - unfold float64_ok, unpack_d. cbn [bits].
    apply andb_true_iff. split; [apply Z.leb_le|apply Z.ltb_lt]; lia.
  - unfold pack_d, unpack_d. cbn [bits].
    rewrite <- Hlen. apply le_bytes_le_value.
Qed.

Lemma pack_nd_chunks (n : nat) (bs : list byte) :
  length bs = (8 * n)%nat ->
  forallb float64_ok (map unpack_d (chunks 8 n bs)) = true
  /\ pack_nd (map unpack_d (chunks 8 n bs)) = bs.
Proof.
  revert bs. induction n as [|n IH]; intros bs Hlen.
  - destruct bs; [now split|discriminate].
  - cbn [chunks map forallb]. unfold pack_nd. cbn [map concat].
    assert (H8 : length (take 8 bs) = 8%nat) by (rewrite length_take; lia).
    destruct (pack_d_unpack_d (take 8 bs) H8) as [Hok Hpack].
    destruct (IH (drop 8 bs)) as [Hoks Hpacks];
      [rewrite length_drop; lia|].
    split.
    + now rewrite Hok, Hoks.
    + rewrite Hpack. unfold pack_nd in Hpacks. rewrite Hpacks.
      apply take_drop.
Qed.

(** X14.  [_read_unpack('i', fh)] fails only on a file with fewer than four
    bytes left; otherwise it advances the file by four bytes and returns an
    integer in int32 range, and packing that integer gives back the bytes
    that were read. *)
Theorem read_unpack_i_round_trip (fh : file_handle) :
  (4 <= length fh)%nat ->
  exists v,
    _read_unpack_i fh = ret (v, drop 4 fh)
    /\ int32_ok v = true
    /\ pack_i v = ret (take 4 fh).
Proof.
  intros H. rewrite _read_unpack_i_spec.
  destruct (Nat.leb_spec 4 (length fh)); [|lia].
  exists (unpack_i (take 4 fh)). split; [reflexivity|].
  apply pack_i_unpack_i. rewrite length_take. lia.
Qed.

Lemma read_unpack_i_round_trip_witness :
  exists v,
    _read_unpack_i (int32_bytes (-7) ++ pack_d one)
    = ret (v, drop 4 (int32_bytes (-7) ++ pack_d one))
    /\ int32_ok v = true
    /\ pack_i v = ret (take 4 (int32_bytes (-7) ++ pack_d one)).
Proof.
  apply read_unpack_i_round_trip. vm_compute. lia.
Defined.

(** X16.  [_read_unpack('<n>d', fh)] on a file with at least [8 n] bytes
    left returns [n] floats and advances the file by [8 n] bytes; every
    bit pattern is accepted (also those of NaN and the infinities), and
    packing the floats gives back the bytes that were read. *)
Theorem read_unpack_nd_round_trip (n : nat) (fh : file_handle) :
  (8 * n <= length fh)%nat ->
  exists v,
    _read_unpack_nd (Z.of_nat n) fh = ret (v, drop (8 * n) fh)
    /\ length v = n
    /\ forallb float64_ok v = true
    /\ pack_nd v = take (8 * n) fh.
Proof.
  intros H. rewrite _read_unpack_nd_spec.
  destruct (Z.ltb_spec (Z.of_nat n) 0); [lia|].
  rewrite Nat2Z.id.
  destruct (Nat.leb_spec (8 * n) (length fh)); [|lia].
  eexists. split; [reflexivity|]. split.
  - now rewrite length_map, length_chunks.
  - apply pack_nd_chunks. rewrite length_take. lia.
Qed.

Lemma read_unpack_nd_round_trip_witness :
  exists v,
    _read_unpack_nd (Z.of_nat 2) (pack_nd [one; zero] ++ int32_bytes 3)
    = ret (v, drop (8 * 2) (pack_nd [one; zero] ++ int32_bytes 3))
    /\ length v = 2%nat
    /\ forallb float64_ok v = true
    /\ pack_nd v = take (8 * 2) (pack_nd [one; zero] ++ int32_bytes 3).
Proof.
  apply read_unpack_nd_round_trip. vm_compute. lia.
Defined.

(** ** The order of records with equal indices *)

Lemma float_eq_key (x y : float64) :
  is_nan x = false -> is_nan y = false ->
  float_eq x y = (ord_key x =? ord_key y).
Proof. unfold float_eq. now intros -> ->. Qed.

Lemma float_lt_key (x y : float64) :
  is_nan x = false -> is_nan y = false ->
  float_lt x y = (ord_key x <? ord_key y).
Proof. unfold float_lt. now intros -> ->. Qed.

Lemma vec_lt_asym (v w : vector) :
  forallb (fun x => negb (is_nan x)) v = true ->
  forallb (fun x => negb (is_nan x)) w = true ->
  vec_lt v w = true -> vec_lt w v = false.
Proof.
  revert w. induction v as [|x v IH]; intros [|y w] Hv Hw H; cbn in *;
    try discriminate; try reflexivity.
  apply andb_true_iff in Hv as [Hx Hv]. apply andb_true_iff in Hw as [Hy Hw].
  specialize (IH w Hv Hw). compare_keys float_eq_key float_lt_key.
Qed.

Lemma vec_le_trans (v w u : vector) :
  forallb (fun x => negb (is_nan x)) v = true ->
  forallb (fun x => negb (is_nan x)) w = true ->
  forallb (fun x => negb (is_nan x)) u = true ->
  vec_lt w v = false -> vec_lt u w = false -> vec_lt u v = false.
Proof.
  revert w u. induction v as [|x v IH]; intros [|y w] [|z u] Hv Hw Hu H1 H2;
    cbn in *; try discriminate; try reflexivity.
  apply andb_true_iff in Hv as [Hx Hv]. apply andb_true_iff in Hw as [Hy Hw].
  apply andb_true_iff in Hu as [Hz Hu].
  specialize (IH w u Hv Hw Hu). compare_keys float_eq_key float_lt_key.
Qed.

Lemma record_lt_asym (a b : record) :
  nan_free a = true -> nan_free b = true ->
  record_lt a b = true -> record_le a b.
Proof.
  unfold nan_free, record_le, record_lt. intros Ha Hb.
  destruct (Z.eqb_spec (fst a) (fst b)) as [E|E];
    destruct (Z.eqb_spec (fst b) (fst a)) as [E'|E']; try congruence.
  - now apply vec_lt_asym.
  - intros H. apply Z.ltb_lt in H. apply Z.ltb_ge. lia.
Qed.

Lemma record_le_trans (a b c : record) :
  nan_free a = true -> nan_free b = true -> nan_free c = true ->
  record_le a b -> record_le b c -> record_le a c.
Proof.
  unfold nan_free, record_le, record_lt. intros Ha Hb Hc.
  destruct (Z.eqb_spec (fst b) (fst a)); destruct (Z.eqb_spec (fst c) (fst b));
    destruct (Z.eqb_spec (fst c) (fst a)); try lia;
    intros H1 H2; try (apply Z.ltb_ge in H1); try (apply Z.ltb_ge in H2);
    try (apply Z.ltb_ge); try lia.
  now apply (vec_le_trans (snd a) (snd b) (snd c)).
Qed.

Lemma insert_sorted_record_le (x : record) (l : list record) :
  nan_free x = true -> forallb nan_free l = true ->
  StronglySorted record_le l -> StronglySorted record_le (insert_sorted x l).
Proof.
  intros Hx. induction l as [|y l IH]; intros Hl Hs; simpl.
  - repeat constructor.
  - cbn [forallb] in Hl. apply andb_true_iff in Hl as [Hy Hl].
    apply StronglySorted_inv in Hs as [Hs Hall].
    destruct (record_lt y x) eqn:Hlt.
    + constructor; [now apply IH|].
      eapply Permutation_Forall; [symmetry; apply insert_sorted_perm|].
      constructor; [now apply record_lt_asym|exact Hall].
    + constructor; [now constructor|].
      constructor; [exact Hlt|].
      apply List.Forall_forall. intros z Hz.
      apply (record_le_trans x y z); try assumption.
      * apply (proj1 (forallb_forall nan_free l) Hl z Hz).
      * apply (proj1 (List.Forall_forall _ _) Hall z Hz).
Qed.

Lemma forallb_perm {A} (f : A -> bool) (l l' : list A) :
  Permutation l l' -> forallb f l = true -> forallb f l' = true.
Proof.
  intros Hp H. apply forallb_forall. intros x Hx.
  apply (proj1 (forallb_forall f l) H).
  eapply Permutation_in; [symmetry; exact Hp|exact Hx].
Qed.

Lemma StronglySorted_lookup_lt {A} (R : A -> A -> Prop) (l : list A)
    (i j : nat) (a b : A) :
  StronglySorted R l -> (i < j)%nat ->
  l !! i = Some a -> l !! j = Some b -> R a b.
Proof.
  intros Hs. revert i j. induction Hs as [|x l Hs IH Hall]; intros i j Hij Hi Hj.
  - discriminate.
  - destruct j as [|j]; [lia|]. destruct i as [|i]; cbn in Hi, Hj.
    + injection Hi as <-.
      exact (Forall_lookup_1 _ _ _ _ Hall Hj).
    + apply (IH i j); [lia|assumption|assumption].
Qed.

(** X2.  When no decoded value is a NaN, the records are yielded in the
    order of the whole tuples [(index, vector)]: no record is smaller than
    one yielded before it.  Records that share an index are therefore
    ordered by their vectors, not by their position in the file: of two
    such records the one yielded later never has the smaller vector. *)
Theorem ties_ordered_by_vector (records : list record) :
  forallb nan_free records = true ->
  StronglySorted record_le (list_sort records)
  /\ forall (i j : nat) (a b : record),
       (i < j)%nat ->
       list_sort records !! i = Some a ->
       list_sort records !! j = Some b ->
       fst a = fst b ->
       vec_lt (snd b) (snd a) = false.
Proof.
  intros Hnan.
  assert (Hs : StronglySorted record_le (list_sort records)).
  { induction records as [|x l IH]; [constructor|].
    cbn [forallb] in Hnan. apply andb_true_iff in Hnan as [Hx Hl].
    simpl. apply insert_sorted_record_le; [assumption| |now apply IH].
    apply (forallb_perm nan_free l); [symmetry; apply list_sort_perm|exact Hl]. }
  split; [exact Hs|].
  intros i j a b Hij Ha Hb Hab.
  pose proof (StronglySorted_lookup_lt _ _ _ _ _ _ Hs Hij Ha Hb) as Hle.
  unfold record_le, record_lt in Hle. rewrite <- Hab, Z.eqb_refl in Hle.
  exact Hle.
Qed.

Lemma ties_ordered_by_vector_witness :
  list_sort [(0, [one]); (1, [zero]); (0, [zero])]
  = [(0, [zero]); (0, [one]); (1, [zero])]
  /\ StronglySorted record_le
       (list_sort [(0, [one]); (1, [zero]); (0, [zero])]).
Proof.
  split; [reflexivity|].
  apply (ties_ordered_by_vector [(0, [one]); (1, [zero]); (0, [zero])]).
  reflexivity.
Defined.

(** ** Collecting the results *)

Lemma concatenate_results_concat (yielded : list vector) (acc : list float64) :
  fold_left (fun results result => results ++ result) yielded acc
  = acc ++ concat yielded.
Proof.
  revert acc. induction yielded as [|v vs IH]; intros acc; simpl.
  - now rewrite app_nil_r.
  - now rewrite IH, app_assoc.
Qed.

Lemma split_rows_concat (cols : nat) (rows : list vector) :
  Forall (fun v => length v = cols) rows ->
  split_rows cols (length rows) (concat rows) = rows.
Proof.
  induction 1 as [|v vs Hv Hvs IH]; [reflexivity|].
  cbn [length concat split_rows].
  rewrite (take_app_length' _ _ cols), (drop_app_length' _ _ cols)
    by now rewrite Hv.
  now rewrite IH.
Qed.

(** X17.  In [produce_MNIST_plot], when every vector the generator yields
    has two values, the array obtained by concatenating the results and
    reshaping to two columns has one row for each result, row [i] being the
    [i]-th result: the rows stay aligned with the samples. *)
Theorem reshaped_rows_are_results (yielded : list vector) :
  Forall (fun v => length v = 2%nat) yielded ->
  reshape_2 (concatenate_results yielded) = Some yielded.
Proof.
  intros H. unfold reshape_2, concatenate_results.
  rewrite concatenate_results_concat. cbn [app].
  assert (Hlen : length (concat yielded) = (2 * length yielded)%nat).
  { induction H as [|v vs Hv Hvs IH]; [reflexivity|].
    cbn [concat length]. rewrite length_app, Hv, IH. lia. }
  rewrite Hlen.
  replace ((2 * length yielded) mod 2)%nat with 0%nat
    by (symmetry; rewrite Nat.mul_comm; apply Nat.Div0.mod_mul).
  cbn [Nat.eqb].
  replace (2 * length yielded / 2)%nat with (length yielded)
    by (symmetry; rewrite Nat.mul_comm; apply Nat.div_mul; lia).
  now rewrite split_rows_concat.
Qed.

Lemma reshaped_rows_are_results_witness :
  reshape_2 (concatenate_results [[zero; one]; [one; zero]; [one; one]])
  = Some [[zero; one]; [one; zero]; [one; one]].
Proof.
  apply reshaped_rows_are_results. repeat constructor.
Defined.
